(** * opencontainers.struct: StructAttr and Struct

    A shallow embedding of [opencontainers/struct.py] and the properties of
    its attribute model, validation, projection ([to_dict], [to_json]) and
    deserialisation ([load]).

    Python values are embedded as the inductive [pyval]; Python's [dict] is an
    insertion-ordered association list; the methods of [Struct], which read
    and mutate [self.attrs] and talk to the logger, are written in a state
    monad whose failures keep the state reached so far. *)

From Stdlib Require Import List String Ascii ZArith Bool.
From Stdlib Require Import DecimalString.
Import ListNotations.
Open Scope string_scope.
Open Scope Z_scope.
Set Warnings "-register-all".

(** ** Python values and types *)

(** The values a Struct attribute holds and a JSON document carries: [None],
    booleans, integers, text, lists and dictionaries with text keys.
    Characters are the code points below 256; floats are not embedded. *)
Inductive pyval : Type :=
| VNone
| VBool (b : bool)
| VInt (z : Z)
| VStr (s : string)
| VList (l : list pyval)
| VDict (d : list (string * pyval)).

(** The classes used as attribute types. *)
Inductive pytype : Type :=
| TObject | TNoneType | TBool | TInt | TStr | TList | TDict.

(** [attType]: "a python type, can be provided in list". *)
Inductive atttype : Type :=
| Scalar (t : pytype)
| InList (ts : list pytype).

(** Python truth value: [None], [False], [0], the empty text, [[]] and [{}]
    are falsy. *)
Definition truthy (v : pyval) : bool :=
  match v with
  | VNone => false
  | VBool b => b
  | VInt z => negb (z =? 0)
  | VStr s => negb (s =? EmptyString)%string
  | VList l => match l with [] => false | _ => true end
  | VDict d => match d with [] => false | _ => true end
  end.

(** [isinstance(v, t)] for a class [t]; every value is an [object] and
    [bool] is a subclass of [int]. *)
Definition isinstance (v : pyval) (t : pytype) : bool :=
  match v, t with
  | _, TObject => true
  | VNone, TNoneType => true
  | VBool _, TBool => true
  | VBool _, TInt => true
  | VInt _, TInt => true
  | VStr _, TStr => true
  | VList _, TList => true
  | VDict _, TDict => true
  | _, _ => false
  end.

(** ** Insertion-ordered dictionaries *)

Module Dict.

Definition t (V : Type) : Type := list (string * V).

Fixpoint get {V} (d : t V) (k : string) : option V :=
  match d with
  | [] => None
  | (k', v) :: d' => if (k' =? k)%string then Some v else get d' k
  end.

Definition mem {V} (d : t V) (k : string) : bool :=
  match get d k with Some _ => true | None => false end.

(** [d[k] = v]: an existing key keeps its position, a new key goes last. *)
Fixpoint set {V} (d : t V) (k : string) (v : V) : t V :=
  match d with
  | [] => [(k, v)]
  | (k', v') :: d' =>
      if (k' =? k)%string then (k', v) :: d' else (k', v') :: set d' k v
  end.

(** In-place mutation of the object stored under [k]. *)
Fixpoint update {V} (d : t V) (k : string) (f : V -> V) : t V :=
  match d with
  | [] => []
  | (k', v) :: d' =>
      if (k' =? k)%string then (k', f v) :: d' else (k', v) :: update d' k f
  end.

Definition keys {V} (d : t V) : list string := map fst d.

End Dict.

(** ** StructAttr *)

Record StructAttr : Type := mkAttr {
  name : string;
  value : pyval;
  attType : atttype;
  required : bool;
  jsonName : string;
  omitempty : bool
}.

(** [self.value = v] *)
Definition with_value (self : StructAttr) (v : pyval) : StructAttr :=
  {| name := name self; value := v; attType := attType self;
     required := required self; jsonName := jsonName self;
     omitempty := omitempty self |}.

(** [StructAttr.__init__]: [self.jsonName = jsonName or name]. *)
Definition StructAttr_init (name : string) (attType : atttype) (required : bool)
    (jsonName : option string) (value : pyval) (omitempty : bool) : StructAttr :=
  {| name := name; value := value; attType := attType; required := required;
     jsonName := match jsonName with
                 | Some j => if (j =? EmptyString)%string then name else j
                 | None => name
                 end;
     omitempty := omitempty |}.

(** [StructAttr.validate_type] *)
Definition validate_type (self : StructAttr) (v : pyval) : bool :=
  match attType self with
  | InList ts =>
      match v with
      | VList entries =>
          match ts with
          | [] => true
          | t0 :: _ => forallb (fun entry => isinstance entry t0) entries
          end
      | _ => false
      end
  | Scalar t => isinstance v t
  end.

(** [StructAttr.set]: the attribute after the call and the returned flag. *)
Definition set (self : StructAttr) (v : pyval) : StructAttr * bool :=
  if validate_type self v then (with_value self v, true) else (self, false).

(** ** The logger, failures and the monad of Struct methods *)

(** The messages handed to the logger, one constructor per format string of
    [struct.py], carrying the format's arguments. *)
Inductive message : Type :=
| AlreadyAdded (name : string)
| NotValidAttribute (name : string)
| MustBeType (name : string) (t : atttype)
| ProvideDictionary
| NotValidJsonAttribute (key : string)
| IsRequired (name : string)
| ShouldBeType (name : string) (t : atttype).

(** The Python exceptions the methods can raise by themselves. *)
Inductive exn : Type :=
| TypeError_isinstance_arg2
| TypeError_unhashable
| KeyError (k : string)
| AttributeError_NoneType.

Inductive outcome (A : Type) : Type :=
| Ret (a : A)
| Exit (m : message)
| Raise (e : exn).
Arguments Ret {A} a.
Arguments Exit {A} m.
Arguments Raise {A} e.

(** What a method sees and changes: the attribute dictionary [self.attrs]
    (keyed by attribute name, in declaration order) and the errors the
    logger has been given so far.  A [StructAttr] object is identified by
    its key in [attrs]. *)
Record world : Type := mkWorld {
  attrs : Dict.t StructAttr;
  errors : list message
}.

Definition M (A : Type) : Type := world -> outcome A * world.

Definition ret {A} (a : A) : M A := fun w => (Ret a, w).

Definition bind {A B} (m : M A) (k : A -> M B) : M B :=
  fun w =>
    match m w with
    | (Ret a, w') => k a w'
    | (Exit e, w') => (Exit e, w')
    | (Raise e, w') => (Raise e, w')
    end.

Notation "x <- m ;; k" := (bind m (fun x => k))
  (at level 61, m at next level, right associativity).
Notation "m ;;; k" := (bind m (fun _ => k))
  (at level 61, right associativity).

Definition raise {A} (e : exn) : M A := fun w => (Raise e, w).

Definition get_attrs : M (Dict.t StructAttr) := fun w => (Ret (attrs w), w).

Definition modify_attrs (f : Dict.t StructAttr -> Dict.t StructAttr) : M unit :=
  fun w => (Ret tt, {| attrs := f (attrs w); errors := errors w |}).

(** Modelled from the spec: [opencontainers.logger.bot] is not part of the
    sources; [bot.error] reports a message and execution continues. *)
Definition bot_error (m : message) : M unit :=
  fun w => (Ret tt, {| attrs := attrs w; errors := errors w ++ [m] |}).

(** Modelled from the spec: [opencontainers.logger.bot] is not part of the
    sources; [bot.exit] reports a fatal message and terminates the
    operation. *)
Definition bot_exit {A} (m : message) : M A := fun w => (Exit m, w).

(** [for x in l: body(x)] *)
Fixpoint for_each {A} (l : list A) (body : A -> M unit) : M unit :=
  match l with
  | [] => ret tt
  | x :: l' => body x ;;; for_each l' body
  end.

(** ** Struct *)

(** [Struct.newAttr] *)
Definition newAttr (name : string) (attType : atttype) (required : bool)
    (jsonName : option string) (omitempty : bool) : M unit :=
  d <- get_attrs ;;
  if Dict.mem d name then bot_exit (AlreadyAdded name)
  else modify_attrs (fun d =>
         Dict.set d name
           (StructAttr_init name attType required jsonName VNone omitempty)).

(** The body of the loop of [_clear_values]: [self.attrs[name].value = None]. *)
Definition clear_value (item : string * StructAttr) : M unit :=
  let '(name, _) := item in
  modify_attrs (fun d => Dict.update d name (fun a => with_value a VNone)).

(** [Struct._clear_values] *)
Definition _clear_values : M unit :=
  d <- get_attrs ;; for_each d clear_value.

(** The loop of [Struct.validate]; [isinstance] with a list as its second
    argument raises [TypeError]. *)
Fixpoint validate_loop (items : list (string * StructAttr)) : M bool :=
  match items with
  | [] => ret true
  | (name, att) :: rest =>
      if required att && negb (truthy (value att)) then
        bot_error (IsRequired name) ;;; ret false
      else
        match attType att with
        | InList _ => raise TypeError_isinstance_arg2
        | Scalar t =>
            if negb (isinstance (value att) t) then
              bot_error (ShouldBeType name (attType att)) ;;; ret false
            else validate_loop rest
        end
  end.

(** [Struct.validate] *)
Definition validate : M bool :=
  d <- get_attrs ;; validate_loop d.

(** The table [lookup] of [to_dict] with its default:
    the empty text for [str], [None] for [int], [[]] for [list], [{}] for
    [dict], and [[]] for any other type. *)
Definition empty_lookup (t : pytype) : pyval :=
  match t with
  | TStr => VStr EmptyString
  | TInt => VNone
  | TList => VList []
  | TDict => VDict []
  | _ => VList []
  end.

(** The loop of [Struct.to_dict]; a list is unhashable, so looking one up in
    the table raises [TypeError]. *)
Fixpoint to_dict_loop (items : list (string * StructAttr))
    (result : Dict.t pyval) : M (Dict.t pyval) :=
  match items with
  | [] => ret result
  | (_, att) :: rest =>
      if negb (truthy (value att)) && omitempty att then
        to_dict_loop rest result
      else if negb (truthy (value att)) then
        match attType att with
        | InList _ => raise TypeError_unhashable
        | Scalar t =>
            to_dict_loop rest (Dict.set result (jsonName att) (empty_lookup t))
        end
      else to_dict_loop rest (Dict.set result (jsonName att) (value att))
  end.

(** [Struct.to_dict]: the dictionary, or [None] when [validate] fails. *)
Definition to_dict : M pyval :=
  ok <- validate ;;
  if ok then
    d <- get_attrs ;;
    result <- to_dict_loop d [] ;;
    ret (VDict result)
  else ret VNone.

(** ** json.dumps(obj, indent=4)

    The standard library's encoder on the embedded values, with its default
    settings: [ensure_ascii], separators [","] and [": "], keys in
    dictionary order. *)
Module Json.

Definition quote : string := String (ascii_of_nat 34) EmptyString.
Definition backslash : string := String (ascii_of_nat 92) EmptyString.
Definition newline : string := String (ascii_of_nat 10) EmptyString.

Definition hex_digit (n : nat) : string :=
  match n with
  | 0 => "0" | 1 => "1" | 2 => "2" | 3 => "3" | 4 => "4" | 5 => "5"
  | 6 => "6" | 7 => "7" | 8 => "8" | 9 => "9" | 10 => "a" | 11 => "b"
  | 12 => "c" | 13 => "d" | 14 => "e" | _ => "f"
  end%nat.

(** One character of a text: printable ASCII stands for itself, the rest
    is escaped. *)
Definition escape_char (c : ascii) : string :=
  let n := nat_of_ascii c in
  match n with
  | 34 => backslash ++ quote
  | 92 => backslash ++ backslash
  | 10 => backslash ++ "n"
  | 13 => backslash ++ "r"
  | 9 => backslash ++ "t"
  | 8 => backslash ++ "b"
  | 12 => backslash ++ "f"
  | _ =>
      if ((32 <=? n) && (n <=? 126))%nat then String c EmptyString
      else backslash ++ "u00" ++ hex_digit (n / 16) ++ hex_digit (n mod 16)
  end%nat.

Fixpoint escape (s : string) : string :=
  match s with
  | EmptyString => EmptyString
  | String c s' => escape_char c ++ escape s'
  end.

Definition encode_str (s : string) : string := quote ++ escape s ++ quote.

Definition encode_int (z : Z) : string := NilZero.string_of_int (Z.to_int z).

Fixpoint spaces (n : nat) : string :=
  match n with
  | O => EmptyString
  | S n' => String (ascii_of_nat 32) (spaces n')
  end.

Definition newline_indent (indent level : nat) : string :=
  newline ++ spaces (indent * level).

Fixpoint encode (indent level : nat) (v : pyval) : string :=
  match v with
  | VNone => "null"
  | VBool true => "true"
  | VBool false => "false"
  | VInt z => encode_int z
  | VStr s => encode_str s
  | VList [] => "[]"
  | VList l =>
      "[" ++ newline_indent indent (S level)
      ++ String.concat ("," ++ newline_indent indent (S level))
           (map (encode indent (S level)) l)
      ++ newline_indent indent level ++ "]"
  | VDict [] => "{}"
  | VDict d =>
      "{" ++ newline_indent indent (S level)
      ++ String.concat ("," ++ newline_indent indent (S level))
           (map (fun kv =>
                   match kv with
                   | (k, x) =>
                       encode_str k ++ ": " ++ encode indent (S level) x
                   end) d)
      ++ newline_indent indent level ++ "}"
  end.

Definition dumps (obj : pyval) (indent : nat) : string := encode indent 0 obj.

End Json.

(** [Struct.to_json] *)
Definition to_json : M pyval :=
  result <- to_dict ;;
  if truthy result then ret (VStr (Json.dumps result 4)) else ret result.

(** [attr.set(value)] on the object stored under [ref] in [self.attrs]. *)
Definition attr_set (ref : string) (v : pyval) : M bool :=
  d <- get_attrs ;;
  match Dict.get d ref with
  | None => raise (KeyError ref)
  | Some attr =>
      modify_attrs (fun d => Dict.update d ref (fun a => fst (set a v))) ;;;
      ret (snd (set attr v))
  end.

(** [Struct.add] *)
Definition add (name : string) (v : pyval) : M unit :=
  d <- get_attrs ;;
  if negb (Dict.mem d name) then bot_exit (NotValidAttribute name)
  else
    match Dict.get d name with
    | None => raise (KeyError name)
    | Some attr =>
        if truthy v then
          ok <- attr_set name v ;;
          if negb ok then bot_exit (MustBeType name (attType attr))
          else ret tt
        else ret tt
    end.

(** The loop of [Struct.generate_json_lookup]: from jsonName to the
    attribute object, that is, to its key in [self.attrs]. *)
Definition json_lookup (d : Dict.t StructAttr) : Dict.t string :=
  fold_left (fun lookup '(name, att) => Dict.set lookup (jsonName att) name)
    d [].

(** [Struct.generate_json_lookup] *)
Definition generate_json_lookup : M (Dict.t string) :=
  d <- get_attrs ;; ret (json_lookup d).

(** The body of the first loop of [load]: [if not att: bot.exit(...)]. *)
Definition load_check (lookup : Dict.t string) (item : string * pyval) : M unit :=
  let '(key, _) := item in
  match Dict.get lookup key with
  | None => bot_exit (NotValidJsonAttribute key)
  | Some _ => ret tt
  end.

(** The body of the second loop of [load]: [att.set(value)], the flag it
    returns being dropped. *)
Definition load_apply (lookup : Dict.t string) (item : string * pyval) : M unit :=
  let '(key, v) := item in
  match Dict.get lookup key with
  | None => raise AttributeError_NoneType
  | Some att => _ <- attr_set att v ;; ret tt
  end.

(** [Struct.load]; [copy.deepcopy(self.attrs)] builds a copy that is never
    used and changes nothing.  The one trace it can leave, a
    [RecursionError] when a stored value is nested deeper than the
    interpreter's stack allows, is not modelled. *)
Definition load (content : pyval) : M unit :=
  match content with
  | VDict content =>
      lookup <- generate_json_lookup ;;
      for_each content (load_check lookup) ;;;
      _clear_values ;;;
      for_each content (load_apply lookup)
  | _ => bot_exit ProvideDictionary
  end.

(** ** Records, schemas and the vocabulary of the properties *)

(** A Struct whose attributes are [d], the logger having received [errs]. *)
Definition struct (d : Dict.t StructAttr) (errs : list message) : world :=
  {| attrs := d; errors := errs |}.

(** The wire names of the declared attributes, in declaration order. *)
Definition wire_names (d : Dict.t StructAttr) : list string :=
  map (fun na => jsonName (snd na)) d.

(** A Python dict holds each key once: the association list that stands for
    [self.attrs] has unique attribute names, which [newAttr] maintains. *)
Definition unique_names (d : Dict.t StructAttr) : Prop := NoDup (Dict.keys d).

(** No two attributes are serialised under the same wire name. *)
Definition unique_wire_names (d : Dict.t StructAttr) : Prop :=
  NoDup (wire_names d).

(** A freshly constructed record of the same schema: the same declarations,
    every value unset. *)
Definition fresh (d : Dict.t StructAttr) : Dict.t StructAttr :=
  map (fun na => (fst na, with_value (snd na) VNone)) d.

(** The declarations of a schema, as the arguments of [newAttr]. *)
Record declaration : Type := mkDecl {
  d_name : string;
  d_attType : atttype;
  d_required : bool;
  d_jsonName : option string;
  d_omitempty : bool
}.

(** A constructor that declares its attributes one after the other. *)
Definition declare (ds : list declaration) : M unit :=
  for_each ds (fun x =>
    newAttr (d_name x) (d_attType x) (d_required x) (d_jsonName x)
      (d_omitempty x)).

(** The attribute the jsonName lookup holds for a wire name: the last
    declared attribute of that wire name. *)
Fixpoint winner (d : Dict.t StructAttr) (k : string) : option string :=
  match d with
  | [] => None
  | (n, a) :: d' =>
      match winner d' k with
      | Some m => Some m
      | None => if (jsonName a =? k)%string then Some n else None
      end
  end.

(** The value attribute [a], stored under [n], holds after [load content]
    went through: what [content] has for its wire name if the lookup leads
    to [a] and [set] accepts the value, unset otherwise. *)
Definition loaded_value (d : Dict.t StructAttr) (content : Dict.t pyval)
    (n : string) (a : StructAttr) : pyval :=
  match Dict.get content (jsonName a), winner d (jsonName a) with
  | Some v, Some m =>
      if (n =? m)%string && validate_type a v then v else VNone
  | _, _ => VNone
  end.

Definition loaded (d : Dict.t StructAttr) (content : Dict.t pyval)
  : Dict.t StructAttr :=
  map (fun na => (fst na, with_value (snd na) (loaded_value d content (fst na) (snd na)))) d.

(** What [to_dict] emits for an attribute of a valid record, if anything. *)
Definition emitted (a : StructAttr) : option pyval :=
  if truthy (value a) then Some (value a)
  else if omitempty a then None
  else match attType a with
       | Scalar t => Some (empty_lookup t)
       | InList _ => None
       end.

(** The value an attribute comes back with after [to_dict] and [load]. *)
Definition reloaded (a : StructAttr) : pyval :=
  match emitted a with
  | Some v => if validate_type a v then v else VNone
  | None => VNone
  end.

(** A value of the declared type, in the words of the specification: for a
    type given as a class, an instance of it; for a type given in a list, a
    sequence, each element of which is an instance of the first type of the
    list when there is one. *)
Inductive has_type : atttype -> pyval -> Prop :=
| has_type_scalar (t : pytype) (v : pyval) :
    isinstance v t = true -> has_type (Scalar t) v
| has_type_any_list (l : list pyval) :
    has_type (InList []) (VList l)
| has_type_list (t0 : pytype) (ts : list pytype) (l : list pyval) :
    Forall (fun entry => isinstance entry t0 = true) l ->
    has_type (InList (t0 :: ts)) (VList l).

(** "Populated with values satisfying all declared types and required
    constraints". *)
Definition populated (d : Dict.t StructAttr) : Prop :=
  Forall (fun na =>
            validate_type (snd na) (value (snd na)) = true
            /\ (required (snd na) = true -> truthy (value (snd na)) = true)) d.

(** "Empty and therefore omitted". *)
Definition omitted (a : StructAttr) : bool :=
  negb (truthy (value a)) && omitempty a.

(** The round trip as the specification words it: [to_dict] yields a
    mapping, [load] of it into a fresh record succeeds, and every attribute
    has its value back, the omitted ones being unset. *)
Definition roundtrip_as_specified (d : Dict.t StructAttr) : Prop :=
  exists m w',
    fst (to_dict (struct d [])) = Ret (VDict m)
    /\ load (VDict m) (struct (fresh d) []) = (Ret tt, w')
    /\ attrs w' =
       map (fun na =>
              (fst na,
               with_value (snd na)
                 (if omitted (snd na) then VNone else value (snd na)))) d.

(** Every attribute is not required, unset and has omitempty. *)
Definition all_optional_unset (d : Dict.t StructAttr) : Prop :=
  Forall (fun na =>
            required (snd na) = false /\ value (snd na) = VNone
            /\ omitempty (snd na) = true) d.

(** The second pass of [load] as the specification words it: every value of
    the content is stored in the attribute its key leads to. *)
Definition stores_every_value (d : Dict.t StructAttr) (content : Dict.t pyval)
  : Prop :=
  exists w',
    load (VDict content) (struct d []) = (Ret tt, w')
    /\ forall k v, In (k, v) content ->
         exists n a, winner d k = Some n
                     /\ Dict.get (attrs w') n = Some a /\ value a = v.

(** The empty projection as the specification words it. *)
Definition empty_projection_as_specified (w : world) : Prop :=
  all_optional_unset (attrs w) ->
  fst (to_dict w) = Ret (VDict []) /\ fst (to_json w) = Ret VNone.

(** [to_json] as the specification words it: text for a non-empty mapping,
    unset for anything falsy. *)
Definition to_json_as_specified (w : world) : Prop :=
  forall r, fst (to_dict w) = Ret r ->
    (truthy r = true -> exists text, fst (to_json w) = Ret (VStr text))
    /\ (truthy r = false -> fst (to_json w) = Ret VNone).

(** What [validate] checks of one attribute: set if required, and an
    instance of its type, which no value is when the type is given in a
    list. *)
Definition valid_attr (a : StructAttr) : bool :=
  negb (required a && negb (truthy (value a)))
  && match attType a with
     | Scalar t => isinstance (value a) t
     | InList _ => false
     end.

(** The entries [to_dict] emits for a list of valid attributes. *)
Definition projection (items : list (string * StructAttr)) : Dict.t pyval :=
  flat_map (fun na =>
              match emitted (snd na) with
              | Some v => [(jsonName (snd na), v)]
              | None => []
              end) items.

(** The attribute stored under [n] after the second loop of [load] went
    through [content], starting from [a]. *)
Definition apply_to (lookup : Dict.t string) (n : string) (a : StructAttr)
    (content : Dict.t pyval) : StructAttr :=
  fold_left (fun a kv =>
               match Dict.get lookup (fst kv) with
               | Some m => if (n =? m)%string then fst (set a (snd kv)) else a
               | None => a
               end) content a.

(** ** Concrete records used by the examples *)
Module Examples.

(** [Name] (text, required, wire name "name") and [Tags] (list of text,
    not required, omitempty). *)
Definition image_schema : list declaration :=
  [ mkDecl "Name" (Scalar TStr) true (Some "name") true;
    mkDecl "Tags" (InList [TStr]) false None true ].

Definition no_struct : world := struct [] [].

(** The record of [image_schema] with [Name] set to "busybox". *)
Definition busybox : Dict.t StructAttr :=
  [ ("Name", mkAttr "Name" (VStr "busybox") (Scalar TStr) true "name" true);
    ("Tags", mkAttr "Tags" VNone (InList [TStr]) false "Tags" true) ].

(** An attribute declared with type [[int]]. *)
Definition ports (v : pyval) : StructAttr :=
  mkAttr "Ports" v (InList [TInt]) false "ports" true.

(** [Tags] holds a valid list, the required [Name] is unset. *)
Definition tags_then_name : Dict.t StructAttr :=
  [ ("Tags", mkAttr "Tags" (VList [VStr "x"]) (InList [TStr]) false "Tags" true);
    ("Name", mkAttr "Name" VNone (Scalar TStr) true "name" true) ].

(** One optional, unset attribute that accepts any object. *)
Definition any_data : Dict.t StructAttr :=
  [ ("Data", mkAttr "Data" VNone (Scalar TObject) false "data" true) ].

(** One optional text attribute holding the empty text. *)
Definition empty_name : Dict.t StructAttr :=
  [ ("Name", mkAttr "Name" (VStr EmptyString) (Scalar TStr) false "name" true) ].

(** One optional text attribute, unset. *)
Definition unset_name : Dict.t StructAttr :=
  [ ("Name", mkAttr "Name" VNone (Scalar TStr) false "name" true) ].

(** An optional integer that is emitted even when empty, holding 0. *)
Definition zero_size : Dict.t StructAttr :=
  [ ("Size", mkAttr "Size" (VInt 0) (Scalar TInt) false "size" false) ].

(** Two attributes serialised under the same wire name. *)
Definition same_wire : Dict.t StructAttr :=
  [ ("A", mkAttr "A" (VStr "a") (Scalar TStr) false "x" true);
    ("B", mkAttr "B" (VStr "b") (Scalar TStr) false "x" true) ].

(** A record of five attributes: two hold non-empty values, one is empty
    and omitted, one is empty and emitted with a placeholder that loads,
    one is empty and emitted with a placeholder that does not. *)
Definition image_record : Dict.t StructAttr :=
  [ ("Name", mkAttr "Name" (VStr "busybox") (Scalar TStr) true "name" true);
    ("Size", mkAttr "Size" (VInt 7) (Scalar TInt) false "size" false);
    ("Labels", mkAttr "Labels" (VDict []) (Scalar TDict) false "labels" true);
    ("Note", mkAttr "Note" (VStr EmptyString) (Scalar TStr) false "note" false);
    ("Count", mkAttr "Count" (VInt 0) (Scalar TInt) false "count" false) ].

End Examples.

(** * Properties *)

Open Scope list_scope.

(** Unfolds the monad's plumbing, leaving the data operations folded. *)
Ltac run :=
  cbv beta iota delta
    [bind ret raise get_attrs modify_attrs bot_exit bot_error attr_set negb];
  cbn [fst snd attrs errors].

(** ** Dictionaries *)

Lemma get_set {V} (d : Dict.t V) (k k' : string) (v : V) :
  Dict.get (Dict.set d k v) k' =
  if (k =? k')%string then Some v else Dict.get d k'.
Proof.
  induction d as [|[k0 v0] d IH]; simpl.
  - reflexivity.
  - destruct (String.eqb_spec k0 k) as [->|Hk]; simpl.
    + destruct (k =? k')%string; reflexivity.
    + rewrite IH. destruct (String.eqb_spec k0 k') as [->|Hk'].
      * destruct (String.eqb_spec k k'); congruence.
      * reflexivity.
Qed.

Lemma get_update {V} (d : Dict.t V) (k k' : string) (f : V -> V) :
  Dict.get (Dict.update d k f) k' =
  if (k =? k')%string then option_map f (Dict.get d k') else Dict.get d k'.
Proof.
  induction d as [|[k0 v0] d IH]; simpl.
  - destruct (k =? k')%string; reflexivity.
  - destruct (String.eqb_spec k0 k) as [->|Hk]; simpl.
    + destruct (String.eqb_spec k k') as [->|Hk']; reflexivity.
    + rewrite IH. destruct (String.eqb_spec k0 k') as [->|Hk'].
      * destruct (String.eqb_spec k k'); [congruence | reflexivity].
      * reflexivity.
Qed.

Lemma get_None_not_in {V} (d : Dict.t V) (k : string) :
  Dict.get d k = None <-> ~ In k (Dict.keys d).
Proof.
  induction d as [|[k0 v0] d IH]; simpl.
  - tauto.
  - destruct (String.eqb_spec k0 k); split; intros H.
    + discriminate.
    + exfalso; apply H; now left.
    + intros [?|?]; [congruence | now apply IH].
    + apply IH. intros ?; apply H; now right.
Qed.

(** Under unique keys, mutating the object under [k] touches that entry
    only. *)
Lemma update_map {V} (d : Dict.t V) (k : string) (f : V -> V) :
  NoDup (Dict.keys d) ->
  Dict.update d k f =
  map (fun kv => (fst kv, if (fst kv =? k)%string then f (snd kv) else snd kv)) d.
Proof.
  induction d as [|[k0 v0] d IH]; simpl; intros Hnd.
  - reflexivity.
  - inversion Hnd as [|? ? Hnotin Hnd']; subst.
    destruct (String.eqb_spec k0 k) as [->|Hk].
    + f_equal. clear IH Hnd Hnd'.
      induction d as [|[k1 v1] d IH]; simpl; [reflexivity|].
      simpl in Hnotin.
      destruct (String.eqb_spec k1 k) as [->|Hk1]; [tauto|].
      f_equal. apply IH. tauto.
    + f_equal. now apply IH.
Qed.

(** ** [newAttr] keeps attribute names unique *)

Lemma set_keys_fresh {V} (d : Dict.t V) (k : string) (v : V) :
  Dict.get d k = None -> Dict.keys (Dict.set d k v) = Dict.keys d ++ [k].
Proof.
  induction d as [|[k0 v0] d IH]; simpl; intros H.
  - reflexivity.
  - destruct (k0 =? k)%string; [discriminate|]. simpl. f_equal. now apply IH.
Qed.

Lemma newAttr_unique_names (n : string) (t : atttype) (r : bool)
    (j : option string) (o : bool) (w : world) :
  unique_names (attrs w) ->
  unique_names (attrs (snd (newAttr n t r j o w))).
Proof.
  unfold unique_names, newAttr, Dict.mem. run. intros Hnd.
  destruct (Dict.get (attrs w) n) eqn:E; run; [assumption|].
  rewrite set_keys_fresh by assumption.
  apply NoDup_app; [assumption | repeat constructor; tauto |].
  intros k Hk [<-|[]]. now apply get_None_not_in in E.
Qed.

(** ** The jsonName lookup *)

Lemma json_lookup_fold (d : Dict.t StructAttr) (acc : Dict.t string) (k : string) :
  Dict.get
    (fold_left (fun lookup '(name, att) => Dict.set lookup (jsonName att) name)
       d acc) k =
  match winner d k with Some m => Some m | None => Dict.get acc k end.
Proof.
  revert acc. induction d as [|[n a] d IH]; intros acc; simpl.
  - reflexivity.
  - rewrite IH. destruct (winner d k); [reflexivity|].
    rewrite get_set. destruct (jsonName a =? k)%string; reflexivity.
Qed.

Lemma get_json_lookup (d : Dict.t StructAttr) (k : string) :
  Dict.get (json_lookup d) k = winner d k.
Proof.
  unfold json_lookup. rewrite json_lookup_fold.
  destruct (winner d k); reflexivity.
Qed.

Lemma winner_None (d : Dict.t StructAttr) (k : string) :
  winner d k = None <-> ~ In k (wire_names d).
Proof.
  induction d as [|[n a] d IH]; simpl.
  - tauto.
  - destruct (winner d k) eqn:E.
    + split; [discriminate|]. intros H. exfalso.
      assert (Hn : ~ In k (wire_names d)) by tauto.
      apply IH in Hn. discriminate.
    + destruct (String.eqb_spec (jsonName a) k) as [Hk|Hk].
      * split; [discriminate | tauto].
      * split; [|reflexivity]. intros _ [?|?]; [congruence|].
        now apply (proj1 IH).
Qed.

Lemma winner_Some (d : Dict.t StructAttr) (k n : string) :
  winner d k = Some n -> exists a, In (n, a) d /\ jsonName a = k.
Proof.
  induction d as [|[n0 a0] d IH]; simpl; [discriminate|].
  destruct (winner d k) eqn:E.
  - intros [= ->]. destruct (IH eq_refl) as (a & Hin & Hj). eauto.
  - destruct (String.eqb_spec (jsonName a0) k) as [Hk|Hk]; [|discriminate].
    intros [= ->]. eauto.
Qed.

(** ** StructAttr: [validate_type], [set] and [add] *)

(** C7: an attribute declared with type [[int]] accepts [[]] and
    [[1, 2, 3]], rejects [[1, "a"]] and rejects the non-sequence 5, whatever
    its name, flags and current value. *)
Theorem validate_type_list_of_int (n j : string) (current : pyval)
    (r o : bool) :
  let a := mkAttr n current (InList [TInt]) r j o in
  validate_type a (VList []) = true
  /\ validate_type a (VList [VInt 1; VInt 2; VInt 3]) = true
  /\ validate_type a (VList [VInt 1; VStr "a"]) = false
  /\ validate_type a (VInt 5) = false.
Proof. repeat split. Qed.

Lemma add_world (n : string) (v : pyval) (w : world) :
  snd (add n v w) = w
  \/ snd (add n v w) =
     {| attrs := Dict.update (attrs w) n (fun a => fst (set a v));
        errors := errors w |}.
Proof.
  unfold add. run.
  destruct (Dict.mem (attrs w) n); run; [|now left].
  destruct (Dict.get (attrs w) n) as [attr|] eqn:E; run; [|now left].
  destruct (truthy v); run; [|now left].
  rewrite E. run.
  destruct (snd (set attr v)); run; now right.
Qed.

Lemma validate_type_has_type (a : StructAttr) (v : pyval) :
  validate_type a v = true <-> has_type (attType a) v.
Proof.
  unfold validate_type. destruct (attType a) as [t|ts].
  - split; intros H; [now constructor | now inversion H].
  - destruct v as [| b | z | s | l | d];
      try (split; [discriminate | intros H; inversion H]).
    destruct ts as [|t0 ts].
    + split; [constructor | reflexivity].
    + split; intros H.
      * constructor. apply Forall_forall. intros x Hx.
        now apply (proj1 (forallb_forall _ _) H).
      * inversion H as [| |? ? ? Hall]; subst.
        apply forallb_forall. intros x Hx.
        now apply (proj1 (Forall_forall _ _) Hall).
Qed.

(** C6: [set] validates the candidate against the declared type: a value
    of the declared type (an instance of the class, or a list of instances
    of the class given in a list) is stored and [True] returned; any other
    value is not stored, [False] is returned and the attribute is the one
    it was.  Hence whatever [add] leaves in an attribute is the value it
    held or a value of the declared type, and nothing else of the record
    changes. *)
Theorem set_stores_only_validated (a : StructAttr) (v : pyval) :
  (has_type (attType a) v -> set a v = (with_value a v, true))
  /\ (~ has_type (attType a) v -> set a v = (a, false))
  /\ (forall t, attType a = Scalar t -> snd (set a v) = isinstance v t)
  /\ snd (set a v) = validate_type a v
  /\ fst (set a v) = (if validate_type a v then with_value a v else a)
  /\ value (fst (set a v)) = (if validate_type a v then v else value a)
  /\ forall (w : world) (n m : string) (b' : StructAttr),
       Dict.get (attrs (snd (add n v w))) m = Some b' ->
       exists b, Dict.get (attrs w) m = Some b
                 /\ (b' = b
                     \/ (m = n /\ b' = with_value b v
                         /\ validate_type b v = true
                         /\ has_type (attType b) v)).
Proof.
  split; [|split; [|split]].
  - intros H. apply validate_type_has_type in H. unfold set. now rewrite H.
  - intros H. unfold set. destruct (validate_type a v) eqn:E; [|reflexivity].
    exfalso. apply H. now apply validate_type_has_type.
  - intros t Ht. unfold set, validate_type. rewrite Ht.
    now destruct (isinstance v t).
  - unfold set. repeat split; try (destruct (validate_type a v); reflexivity).
    intros w n m b' Hget.
    destruct (add_world n v w) as [E|E]; rewrite E in Hget; clear E.
    + eauto.
    + simpl in Hget. rewrite get_update in Hget.
      destruct (String.eqb_spec n m) as [->|Hnm]; [|eauto].
      destruct (Dict.get (attrs w) m) as [b|]; [|discriminate].
      simpl in Hget. injection Hget as <-. exists b. split; [reflexivity|].
      unfold set. destruct (validate_type b v) eqn:Hv; simpl; [|auto].
      right. repeat split. now apply validate_type_has_type.
Qed.

(** A text attribute keeps "busybox" when [set] is given the integer 5 and
    takes "alpine" when given that. *)
Lemma set_stores_only_validated_witness :
  let a := mkAttr "Name" (VStr "busybox") (Scalar TStr) true "name" true in
  set a (VInt 5) = (a, false)
  /\ set a (VStr "alpine") = (with_value a (VStr "alpine"), true).
Proof.
  intros a. split.
  - apply (set_stores_only_validated a (VInt 5)).
    intros H. inversion H. discriminate.
  - apply (set_stores_only_validated a (VStr "alpine")).
    now constructor.
Defined.

(** C10: [add] with a falsy value on a declared attribute checks no type,
    does not fail and leaves the record (the attribute included) as it
    was. *)
Theorem add_falsy_is_noop (w : world) (n : string) (v : pyval) :
  Dict.mem (attrs w) n = true ->
  truthy v = false ->
  add n v w = (Ret tt, w).
Proof.
  intros Hmem Hv. unfold add, bind, get_attrs. simpl. rewrite Hmem. simpl.
  unfold Dict.mem in Hmem.
  destruct (Dict.get (attrs w) n); [|discriminate].
  rewrite Hv. reflexivity.
Qed.

(** The falsy values [None], [0], the empty text, [[]], [{}] and [False]
    leave [Ports] at [[80]], whether or not they are lists of integers. *)
Lemma add_falsy_is_noop_witness :
  let w := struct [("Ports", Examples.ports (VList [VInt 80]))] [] in
  Forall (fun v => add "Ports" v w = (Ret tt, w))
    [VNone; VInt 0; VStr EmptyString; VList []; VDict []; VBool false].
Proof.
  intros w.
  repeat (apply Forall_cons;
          [apply add_falsy_is_noop; reflexivity|]).
  apply Forall_nil.
Defined.

(** ** [load]: the key check *)

Lemma load_check_unknown (lookup : Dict.t string) (c : Dict.t pyval) (w : world) :
  (exists k, In k (Dict.keys c) /\ Dict.get lookup k = None) ->
  exists k, In k (Dict.keys c) /\ Dict.get lookup k = None
            /\ for_each c (load_check lookup) w
               = (Exit (NotValidJsonAttribute k), w).
Proof.
  induction c as [|[k0 v0] c IH]; simpl.
  - intros (k & [] & _).
  - intros (k & Hin & Hk).
    unfold bind. simpl.
    destruct (Dict.get lookup k0) eqn:E0.
    + simpl. destruct IH as (k' & Hin' & Hk' & Hrun).
      * exists k. split; [|assumption].
        destruct Hin as [->|Hin]; [congruence | assumption].
      * exists k'. auto.
    + exists k0. auto.
Qed.

Lemma load_check_known (lookup : Dict.t string) (c : Dict.t pyval) (w : world) :
  (forall k, In k (Dict.keys c) -> Dict.get lookup k <> None) ->
  for_each c (load_check lookup) w = (Ret tt, w).
Proof.
  induction c as [|[k0 v0] c IH]; simpl; intros Hall.
  - reflexivity.
  - unfold bind. simpl.
    destruct (Dict.get lookup k0) eqn:E0.
    + simpl. apply IH. auto.
    + exfalso. apply (Hall k0); auto.
Qed.

(** C2: when the content has a key that no attribute declares as its wire
    name, [load] ends in the fatal exit for an undeclared key of the
    content, and the record is exactly the one it was: nothing was cleared
    and nothing was set. *)
Theorem load_unknown_key_keeps_state (w : world) (content : Dict.t pyval)
    (k : string) :
  In k (Dict.keys content) ->
  ~ In k (wire_names (attrs w)) ->
  exists k', In k' (Dict.keys content)
             /\ ~ In k' (wire_names (attrs w))
             /\ load (VDict content) w = (Exit (NotValidJsonAttribute k'), w).
Proof.
  intros Hin Hk.
  destruct (load_check_unknown (json_lookup (attrs w)) content w)
    as (k' & Hin' & Hk' & Hrun).
  - exists k. split; [assumption|].
    rewrite get_json_lookup. now apply winner_None.
  - exists k'. split; [assumption|]. split.
    + apply winner_None. now rewrite <- get_json_lookup.
    + unfold load, bind, generate_json_lookup, get_attrs, ret. simpl.
      rewrite Hrun. reflexivity.
Qed.

Lemma load_unknown_key_keeps_state_witness :
  exists k',
    In k' ["name"; "tags"]
    /\ ~ In k' (wire_names Examples.busybox)
    /\ load (VDict [("name", VStr "alpine"); ("tags", VList [VStr "x"])])
         (struct Examples.busybox [])
       = (Exit (NotValidJsonAttribute k'), struct Examples.busybox []).
Proof.
  apply (load_unknown_key_keeps_state (struct Examples.busybox [])
           [("name", VStr "alpine"); ("tags", VList [VStr "x"])] "tags").
  - simpl. auto.
  - simpl. intros [H|[H|[]]]; discriminate.
Defined.

(** ** [validate] *)

Lemma validate_loop_valid (items : list (string * StructAttr)) (w : world) :
  forallb valid_attr (map snd items) = true ->
  validate_loop items w = (Ret true, w).
Proof.
  induction items as [|[n a] items IH]; simpl; intros H.
  - reflexivity.
  - apply andb_true_iff in H as [Ha Hrest]. unfold valid_attr in Ha.
    apply andb_true_iff in Ha as [Hreq Hty].
    apply negb_true_iff in Hreq. rewrite Hreq.
    destruct (attType a) as [t|ts]; [|discriminate].
    rewrite Hty. simpl. now apply IH.
Qed.

Lemma validate_loop_true (items : list (string * StructAttr)) (w : world) :
  fst (validate_loop items w) = Ret true ->
  forallb valid_attr (map snd items) = true.
Proof.
  induction items as [|[n a] items IH]; simpl; intros H.
  - reflexivity.
  - unfold valid_attr at 1.
    destruct (required a && negb (truthy (value a))); [discriminate H|].
    destruct (attType a) as [t|ts]; [|discriminate H].
    destruct (isinstance (value a) t); [|discriminate H].
    simpl. now apply IH.
Qed.

(** With scalar types only, [validate] reports one error and returns
    [False] as soon as some attribute is required and unset. *)
Lemma validate_required_unset_scalar (items : list (string * StructAttr))
    (w : world) :
  Forall (fun na => exists t, attType (snd na) = Scalar t) items ->
  Exists (fun na => required (snd na) = true /\ truthy (value (snd na)) = false)
    items ->
  exists m, validate_loop items w
            = (Ret false, {| attrs := attrs w; errors := errors w ++ [m] |}).
Proof.
  induction items as [|[n a] items IH]; simpl; intros Hsc Hex.
  - inversion Hex.
  - inversion Hsc as [|? ? [t Ht] Hsc']; subst. simpl in Ht.
    destruct (required a && negb (truthy (value a))) eqn:Hreq.
    + eexists. reflexivity.
    + rewrite Ht. destruct (isinstance (value a) t).
      * simpl. apply IH; [assumption|].
        inversion Hex as [? ? [Hr Hv]|]; subst; [|assumption].
        simpl in Hr, Hv. rewrite Hr, Hv in Hreq. discriminate.
      * eexists. reflexivity.
Qed.

(** C3: [Tags], of type [[str]], holds the valid list [["x"]] and is declared
    before the required [Name], which is unset.  [validate] does not report
    [Name] and return [False]: the type check of [Tags] raises [TypeError],
    and so does [to_dict]; nothing is reported. *)
Theorem validate_raises_before_required_is_seen :
  validate (struct Examples.tags_then_name [])
  = (Raise TypeError_isinstance_arg2, struct Examples.tags_then_name [])
  /\ to_dict (struct Examples.tags_then_name [])
     = (Raise TypeError_isinstance_arg2, struct Examples.tags_then_name [])
  /\ fst (validate (struct Examples.tags_then_name [])) <> Ret false
  /\ fst (to_dict (struct Examples.tags_then_name [])) <> Ret VNone.
Proof. repeat split; discriminate. Qed.

(** ** [to_dict] and [to_json] *)

Lemma set_fresh_key {V} (d : Dict.t V) (k : string) (v : V) :
  ~ In k (Dict.keys d) -> Dict.set d k v = d ++ [(k, v)].
Proof.
  induction d as [|[k0 v0] d IH]; simpl; intros H.
  - reflexivity.
  - destruct (String.eqb_spec k0 k) as [->|Hk]; [tauto|].
    f_equal. apply IH. tauto.
Qed.

Lemma projection_keys (items : list (string * StructAttr)) (k : string) :
  In k (Dict.keys (projection items)) -> In k (wire_names items).
Proof.
  induction items as [|[n a] items IH]; simpl; [tauto|].
  unfold Dict.keys. rewrite map_app. intros H. apply in_app_or in H.
  destruct H as [H|H]; [|right; now apply IH].
  destruct (emitted a); simpl in H; [|tauto].
  destruct H as [H|[]]. now left.
Qed.

Lemma projection_NoDup (items : list (string * StructAttr)) :
  NoDup (wire_names items) -> NoDup (Dict.keys (projection items)).
Proof.
  induction items as [|[n a] items IH]; simpl; intros H.
  - constructor.
  - inversion H as [|? ? Hnotin Hnd]; subst. simpl in Hnotin.
    unfold Dict.keys. rewrite map_app.
    destruct (emitted a); simpl.
    + constructor; [|now apply IH].
      intros Hin. apply Hnotin. now apply projection_keys.
    + now apply IH.
Qed.

Lemma to_dict_loop_valid (items : list (string * StructAttr))
    (result : Dict.t pyval) (w : world) :
  forallb valid_attr (map snd items) = true ->
  NoDup (wire_names items) ->
  (forall k, In k (wire_names items) -> ~ In k (Dict.keys result)) ->
  to_dict_loop items result w = (Ret (result ++ projection items), w).
Proof.
  revert result. induction items as [|[n a] items IH]; simpl; intros result Hv Hnd Hfresh.
  - now rewrite app_nil_r.
  - apply andb_true_iff in Hv as [Ha Hrest].
    inversion Hnd as [|? ? Hnotin Hnd']; subst. simpl in Hnotin.
    assert (Hstep : forall v,
      to_dict_loop items (Dict.set result (jsonName a) v) w
      = (Ret (result ++ (jsonName a, v) :: projection items), w)).
    { intros v. rewrite set_fresh_key by (apply Hfresh; now left).
      rewrite IH; [now rewrite <- app_assoc | assumption | assumption |].
      intros k Hk Hin. unfold Dict.keys in Hin. rewrite map_app in Hin.
      apply in_app_or in Hin. destruct Hin as [Hin|[<-|[]]].
      - apply (Hfresh k); [now right | assumption].
      - now apply Hnotin. }
    unfold emitted. destruct (truthy (value a)); simpl.
    + apply Hstep.
    + destruct (omitempty a); simpl.
      * apply IH; auto.
      * unfold valid_attr in Ha. apply andb_true_iff in Ha as [_ Hty].
        destruct (attType a) as [t|ts]; [|discriminate]. apply Hstep.
Qed.

(** [to_dict] yields a dictionary or [None], nothing else. *)
Lemma to_dict_dict_or_None (w w' : world) (r : pyval) :
  to_dict w = (Ret r, w') -> r = VNone \/ exists m, r = VDict m.
Proof.
  unfold to_dict. run.
  destruct (validate w) as [[[|]|m|x] w1]; try discriminate.
  - run. destruct (to_dict_loop (attrs w1) [] w1) as [[m|m|x] w2];
      try discriminate.
    intros [= <- <-]. right. eauto.
  - intros [= <- <-]. now left.
Qed.

Lemma to_dict_loop_all_omitted (items : list (string * StructAttr))
    (result : Dict.t pyval) (w : world) :
  all_optional_unset items ->
  to_dict_loop items result w = (Ret result, w).
Proof.
  induction items as [|[n a] items IH]; simpl; intros H.
  - reflexivity.
  - inversion H as [|? ? (_ & Hv & Ho) H']; subst. simpl in Hv, Ho.
    rewrite Hv, Ho. simpl. now apply IH.
Qed.

Lemma to_dict_all_omitted (w w' : world) (r : pyval) :
  all_optional_unset (attrs w) ->
  to_dict w = (Ret r, w') -> truthy r = false.
Proof.
  intros Hall. unfold to_dict, validate. run.
  destruct (validate_loop (attrs w) w) as [[[|]|msg|x] w1] eqn:Ev;
    try discriminate.
  - assert (Hv : forallb valid_attr (map snd (attrs w)) = true)
      by (apply (validate_loop_true _ w); now rewrite Ev).
    rewrite (validate_loop_valid _ _ Hv) in Ev. injection Ev as <-.
    run. rewrite to_dict_loop_all_omitted by assumption.
    now intros [= <- <-].
  - now intros [= <- <-].
Qed.

(** C4, as the code has it: when every attribute is optional, unset and
    omitempty, [to_json] returns just what [to_dict] returns, and when
    [validate] accepts the record that is the empty mapping, for both. *)
Theorem empty_projection (w : world) :
  all_optional_unset (attrs w) ->
  to_json w = to_dict w
  /\ (fst (validate w) = Ret true ->
      to_dict w = (Ret (VDict []), w) /\ to_json w = (Ret (VDict []), w)).
Proof.
  intros Hall.
  assert (Hj : to_json w = to_dict w).
  { unfold to_json. run.
    destruct (to_dict w) as [[r|msg|x] w'] eqn:E; try reflexivity.
    now rewrite (to_dict_all_omitted _ _ _ Hall E). }
  split; [assumption|]. intros Hv.
  assert (Hd : to_dict w = (Ret (VDict []), w)).
  { unfold to_dict, validate in *. revert Hv. run. intros Hv.
    apply validate_loop_true in Hv.
    rewrite (validate_loop_valid _ _ Hv).
    now rewrite to_dict_loop_all_omitted. }
  split; [assumption|]. now rewrite Hj.
Qed.

Lemma empty_projection_witness :
  all_optional_unset Examples.any_data
  /\ fst (validate (struct Examples.any_data [])) = Ret true
  /\ to_json (struct Examples.any_data []) = to_dict (struct Examples.any_data [])
  /\ to_dict (struct Examples.any_data [])
     = (Ret (VDict []), struct Examples.any_data [])
  /\ to_json (struct Examples.any_data [])
     = (Ret (VDict []), struct Examples.any_data []).
Proof.
  assert (Hall : all_optional_unset Examples.any_data) by repeat constructor.
  split; [exact Hall|]. split; [reflexivity|].
  split.
  - exact (proj1 (empty_projection (struct Examples.any_data []) Hall)).
  - exact (proj2 (empty_projection (struct Examples.any_data []) Hall) eq_refl).
Defined.

(** C4, as specified, fails: a record without attributes, and one whose only
    attribute accepts any object, project to the empty mapping, and
    [to_json] returns that mapping, not [None]. *)
Lemma empty_projection_to_json_not_unset :
  ~ empty_projection_as_specified Examples.no_struct
  /\ ~ empty_projection_as_specified (struct Examples.any_data [])
  /\ fst (to_json Examples.no_struct) = Ret (VDict [])
  /\ fst (to_json (struct Examples.any_data [])) = Ret (VDict []).
Proof.
  repeat split.
  - intros H. destruct H as [_ H]; [constructor | discriminate H].
  - intros H. destruct H as [_ H]; [repeat constructor | discriminate H].
Qed.

(** An optional attribute that is unset fails the type check of [validate]:
    [to_dict] reports it and returns [None]. *)
Lemma unset_optional_fails_validate :
  to_dict (struct Examples.unset_name [])
  = (Ret VNone,
     struct Examples.unset_name [ShouldBeType "Name" (Scalar TStr)]).
Proof. reflexivity. Qed.

(** C5: the record declares [Name] and [Tags] as in the example and loads
    [{"name": "busybox"}].  [load] stores the name, but [to_dict] does not
    yield [{"name": "busybox"}]: [validate] raises [TypeError] at the type
    check of [Tags], whose type is given in a list. *)
Theorem busybox_to_dict_raises :
  (declare Examples.image_schema ;;;
   load (VDict [("name", VStr "busybox")])) Examples.no_struct
  = (Ret tt, struct Examples.busybox [])
  /\ to_dict (struct Examples.busybox [])
     = (Raise TypeError_isinstance_arg2, struct Examples.busybox [])
  /\ fst ((declare Examples.image_schema ;;;
           load (VDict [("name", VStr "busybox")]) ;;;
           to_dict) Examples.no_struct)
     <> Ret (VDict [("name", VStr "busybox")]).
Proof. repeat split; discriminate. Qed.

Lemma string_app_assoc (a b c : string) :
  ((a ++ b) ++ c)%string = (a ++ b ++ c)%string.
Proof. induction a as [|ch a IH]; simpl; [reflexivity | now rewrite IH]. Qed.

(** C9, as the code has it: [to_json] turns a non-empty mapping of [to_dict]
    into the text [json.dumps] gives with indent 4, which opens with a brace,
    a line break and the first key four spaces in; an empty mapping, [None]
    and a failure of [to_dict] are handed on as they are. *)
Theorem to_json_of_to_dict (w : world) :
  match to_dict w with
  | (Ret (VDict ((k, v) :: m)), w') =>
      to_json w = (Ret (VStr (Json.dumps (VDict ((k, v) :: m)) 4)), w')
      /\ exists rest,
           Json.dumps (VDict ((k, v) :: m)) 4
           = ("{" ++ Json.newline ++ "    " ++ Json.encode_str k ++ ": "
              ++ rest)%string
  | (Ret (VDict []), w') => to_json w = (Ret (VDict []), w')
  | (Ret VNone, w') => to_json w = (Ret VNone, w')
  | (Ret _, _) => False
  | (Exit msg, w') => to_json w = (Exit msg, w')
  | (Raise e, w') => to_json w = (Raise e, w')
  end.
Proof.
  unfold to_json. run.
  destruct (to_dict w) as [[r|msg|e] w'] eqn:E; try reflexivity.
  destruct (to_dict_dict_or_None _ _ _ E) as [->|[m ->]]; [reflexivity|].
  destruct m as [|[k v] m]; [reflexivity|].
  split; [reflexivity|].
  unfold Json.dumps. cbn [Json.encode map String.concat].
  destruct (map _ m) as [|x xs].
  - eexists. cbn [Json.newline_indent Json.spaces Nat.mul Nat.add].
    cbn [append Json.newline].
    rewrite !string_app_assoc. reflexivity.
  - eexists. cbn [Json.newline_indent Json.spaces Nat.mul Nat.add].
    cbn [append Json.newline].
    rewrite !string_app_assoc. reflexivity.
Qed.

(** C9, as specified, fails: an optional text attribute holding the empty
    text is omitted, [to_dict] yields the empty mapping and [to_json]
    returns that mapping, not [None]. *)
Lemma to_json_empty_mapping_not_unset :
  fst (to_dict (struct Examples.empty_name [])) = Ret (VDict [])
  /\ fst (to_json (struct Examples.empty_name [])) = Ret (VDict [])
  /\ ~ to_json_as_specified (struct Examples.empty_name []).
Proof.
  repeat split.
  intros H. destruct (H (VDict []) eq_refl) as [_ H'].
  specialize (H' eq_refl). discriminate H'.
Qed.

(** ** [load]: clearing and applying *)

Lemma keys_map_snd {V} (g : string * V -> V) (d : Dict.t V) :
  Dict.keys (map (fun kv => (fst kv, g kv)) d) = Dict.keys d.
Proof. unfold Dict.keys. rewrite map_map. reflexivity. Qed.

Lemma get_in {V} (d : Dict.t V) (k : string) (v : V) :
  Dict.get d k = Some v -> In (k, v) d.
Proof.
  induction d as [|[k0 v0] d IH]; simpl; [discriminate|].
  destruct (String.eqb_spec k0 k) as [->|Hk].
  - intros [= ->]. now left.
  - intros H. right. now apply IH.
Qed.

Lemma in_get {V} (d : Dict.t V) (k : string) (v : V) :
  NoDup (Dict.keys d) -> In (k, v) d -> Dict.get d k = Some v.
Proof.
  induction d as [|[k0 v0] d IH]; simpl; intros Hnd Hin; [contradiction|].
  inversion Hnd as [|? ? Hnotin Hnd']; subst.
  destruct Hin as [[= -> ->]|Hin].
  - now rewrite String.eqb_refl.
  - destruct (String.eqb_spec k0 k) as [->|Hk]; [|now apply IH].
    exfalso. apply Hnotin. unfold Dict.keys.
    change k with (fst (k, v)). now apply in_map.
Qed.

Lemma get_map_snd {V} (g : string -> V -> V) (d : Dict.t V) (k : string) :
  Dict.get (map (fun kv => (fst kv, g (fst kv) (snd kv))) d) k
  = option_map (g k) (Dict.get d k).
Proof.
  induction d as [|[k0 v0] d IH]; simpl; [reflexivity|].
  destruct (String.eqb_spec k0 k) as [->|Hk]; [reflexivity | apply IH].
Qed.

Lemma clear_loop (items : list (string * StructAttr)) :
  forall (cur : Dict.t StructAttr) (e : list message),
    NoDup (Dict.keys cur) ->
    for_each items clear_value (struct cur e)
    = (Ret tt,
       struct (map (fun kv =>
                      (fst kv,
                       if existsb (String.eqb (fst kv)) (Dict.keys items)
                       then with_value (snd kv) VNone else snd kv)) cur) e).
Proof.
  induction items as [|[n a] items IH]; intros cur e Hnd; simpl.
  - unfold ret. do 2 f_equal. symmetry.
    rewrite <- (map_id cur) at 2. apply map_ext. now intros [k v].
  - run. unfold struct at 1. unfold clear_value. run.
    rewrite update_map by assumption.
    fold (struct
            (map (fun kv => (fst kv,
                             if (fst kv =? n)%string
                             then with_value (snd kv) VNone else snd kv)) cur) e).
    rewrite IH by (now rewrite (keys_map_snd
                     (fun kv => if (fst kv =? n)%string
                                then with_value (snd kv) VNone else snd kv))).
    do 2 f_equal. rewrite map_map. apply map_ext. intros [k v]. simpl.
    destruct (k =? n)%string; simpl; [|reflexivity].
    now destruct (existsb _ _).
Qed.

Lemma clear_values_fresh (d : Dict.t StructAttr) (e : list message) :
  unique_names d ->
  _clear_values (struct d e) = (Ret tt, struct (fresh d) e).
Proof.
  intros Hnd. unfold _clear_values. run. fold (struct d e).
  rewrite clear_loop by assumption. do 2 f_equal.
  unfold fresh. apply map_ext_in. intros [k v] Hin. simpl.
  replace (existsb (String.eqb k) (Dict.keys d)) with true; [reflexivity|].
  symmetry. apply existsb_exists. exists k. split.
  - unfold Dict.keys. change k with (fst (k, v)). now apply in_map.
  - apply String.eqb_refl.
Qed.

Lemma load_apply_loop (lookup : Dict.t string) (c : Dict.t pyval) :
  forall (cur : Dict.t StructAttr) (e : list message),
    NoDup (Dict.keys cur) ->
    (forall k, In k (Dict.keys c) ->
       exists n, Dict.get lookup k = Some n /\ In n (Dict.keys cur)) ->
    for_each c (load_apply lookup) (struct cur e)
    = (Ret tt,
       struct (map (fun kv => (fst kv, apply_to lookup (fst kv) (snd kv) c))
                 cur) e).
Proof.
  induction c as [|[k v] c IH]; intros cur e Hnd Hknown; simpl.
  - unfold ret. do 2 f_equal. symmetry.
    rewrite <- (map_id cur) at 2. apply map_ext. now intros [k v].
  - destruct (Hknown k (or_introl eq_refl)) as (n & Hn & Hin).
    destruct (Dict.get cur n) as [attr|] eqn:Hattr;
      [|apply get_None_not_in in Hattr; contradiction].
    run. unfold struct at 1. unfold load_apply. rewrite Hn. run.
    rewrite Hattr. run.
    rewrite update_map by assumption.
    fold (struct
            (map (fun kv => (fst kv,
                             if (fst kv =? n)%string
                             then fst (set (snd kv) v) else snd kv)) cur) e).
    rewrite IH.
    + do 2 f_equal. rewrite map_map. apply map_ext. intros [k' a']. simpl.
      reflexivity.
    + now rewrite (keys_map_snd
                     (fun kv => if (fst kv =? n)%string
                                then fst (set (snd kv) v) else snd kv)).
    + intros k' Hk'. destruct (Hknown k' (or_intror Hk')) as (n' & Hn' & Hin').
      exists n'. split; [assumption|].
      now rewrite (keys_map_snd
                     (fun kv => if (fst kv =? n)%string
                                then fst (set (snd kv) v) else snd kv)).
Qed.

Lemma apply_to_no_hit (lookup : Dict.t string) (n : string) (c : Dict.t pyval) :
  forall a,
    (forall k, In k (Dict.keys c) -> Dict.get lookup k <> Some n) ->
    apply_to lookup n a c = a.
Proof.
  induction c as [|[k v] c IH]; intros a Hno; [reflexivity|].
  unfold apply_to. simpl.
  assert (Hk := Hno k (or_introl eq_refl)).
  destruct (Dict.get lookup k) as [m|].
  - destruct (String.eqb_spec n m) as [->|Hnm]; [congruence|].
    apply IH. intros k' Hk'. apply Hno. now right.
  - apply IH. intros k' Hk'. apply Hno. now right.
Qed.

Lemma apply_to_hit (lookup : Dict.t string) (n j : string) (c : Dict.t pyval) :
  forall a,
    NoDup (Dict.keys c) ->
    (forall k, In k (Dict.keys c) -> (Dict.get lookup k = Some n <-> k = j)) ->
    apply_to lookup n a c
    = match Dict.get c j with Some v => fst (set a v) | None => a end.
Proof.
  induction c as [|[k v] c IH]; intros a Hnd Hhit; [reflexivity|].
  inversion Hnd as [|? ? Hnotin Hnd']; subst.
  unfold apply_to. simpl.
  destruct (String.eqb_spec k j) as [->|Hkj].
  - rewrite (proj2 (Hhit j (or_introl eq_refl)) eq_refl).
    rewrite String.eqb_refl.
    apply apply_to_no_hit. intros k' Hk' Hget.
    apply (Hhit k' (or_intror Hk')) in Hget. subst. contradiction.
  - assert (Hk : Dict.get lookup k <> Some n).
    { intros Hget. apply (Hhit k (or_introl eq_refl)) in Hget. contradiction. }
    assert (Hrest : forall k', In k' (Dict.keys c) ->
                               (Dict.get lookup k' = Some n <-> k' = j)).
    { intros k' Hk'. apply Hhit. now right. }
    destruct (Dict.get lookup k) as [m|].
    + destruct (String.eqb_spec n m) as [->|Hnm]; [congruence|].
      now apply IH.
    + now apply IH.
Qed.

Lemma loaded_attr (d : Dict.t StructAttr) (c : Dict.t pyval) (n : string)
    (a : StructAttr) :
  unique_names d -> NoDup (Dict.keys c) -> In (n, a) d ->
  apply_to (json_lookup d) n (with_value a VNone) c
  = with_value a (loaded_value d c n a).
Proof.
  intros Hnd Hc Hin. unfold loaded_value.
  assert (Hown : forall k, Dict.get (json_lookup d) k = Some n -> k = jsonName a).
  { intros k Hk. rewrite get_json_lookup in Hk.
    apply winner_Some in Hk as (a' & Hin' & Hj).
    pose proof (in_get d n a Hnd Hin) as E.
    rewrite (in_get d n a' Hnd Hin') in E. now injection E as ->. }
  destruct (winner d (jsonName a)) as [m|] eqn:Hw.
  - destruct (String.eqb_spec n m) as [<-|Hnm].
    + rewrite (apply_to_hit _ n (jsonName a)); [|assumption|].
      * destruct (Dict.get c (jsonName a)) as [v|]; [|reflexivity].
        cbn [andb]. unfold set.
        change (validate_type (with_value a VNone) v) with (validate_type a v).
        destruct (validate_type a v); reflexivity.
      * intros k _. split; [apply Hown|].
        intros ->. now rewrite get_json_lookup.
    + rewrite apply_to_no_hit.
      * destruct (Dict.get c (jsonName a)); reflexivity.
      * intros k _ Hk. pose proof (Hown k Hk) as ->.
        rewrite get_json_lookup in Hk. congruence.
  - rewrite apply_to_no_hit.
    + destruct (Dict.get c (jsonName a)); reflexivity.
    + intros k _ Hk. pose proof (Hown k Hk) as ->.
      rewrite get_json_lookup in Hk. congruence.
Qed.

(** [load] of a content whose keys are all declared wire names goes
    through, reports nothing and leaves the attributes of [loaded]. *)
Lemma load_known (d : Dict.t StructAttr) (e : list message) (c : Dict.t pyval) :
  unique_names d ->
  NoDup (Dict.keys c) ->
  (forall k, In k (Dict.keys c) -> In k (wire_names d)) ->
  load (VDict c) (struct d e) = (Ret tt, struct (loaded d c) e).
Proof.
  intros Hnd Hc Hknown.
  assert (Hsome : forall k, In k (Dict.keys c) ->
            exists n, Dict.get (json_lookup d) k = Some n /\ In n (Dict.keys d)).
  { intros k Hk. rewrite get_json_lookup.
    destruct (winner d k) as [n|] eqn:Hw.
    - exists n. split; [reflexivity|].
      apply winner_Some in Hw as (a & Hin & _).
      unfold Dict.keys. change n with (fst (n, a)). now apply in_map.
    - apply winner_None in Hw. exfalso. auto. }
  unfold load, generate_json_lookup. run. unfold struct at 1. cbn [attrs].
  fold (struct d e).
  rewrite load_check_known.
  - rewrite clear_values_fresh by assumption.
    rewrite load_apply_loop.
    + do 2 f_equal. unfold fresh, loaded. rewrite map_map.
      apply map_ext_in. intros [n a] Hin. cbn [fst snd].
      now rewrite loaded_attr.
    + unfold fresh.
      now rewrite (keys_map_snd (fun na => with_value (snd na) VNone)).
    + intros k Hk. destruct (Hsome k Hk) as (n & Hn & Hin).
      exists n. split; [assumption|]. unfold fresh.
      now rewrite (keys_map_snd (fun na => with_value (snd na) VNone)).
  - intros k Hk. destruct (Hsome k Hk) as (n & Hn & _). congruence.
Qed.

Lemma get_loaded (d : Dict.t StructAttr) (c : Dict.t pyval) (n : string) :
  Dict.get (loaded d c) n
  = option_map (fun a => with_value a (loaded_value d c n a)) (Dict.get d n).
Proof.
  exact (get_map_snd (fun n a => with_value a (loaded_value d c n a)) d n).
Qed.

(** C8, as the code has it: once every key of the content is a declared
    wire name, [load] goes through without failure or report; for every
    pair of the content the attribute the key leads to goes through [set],
    so it holds the value if the value passes its type check and is unset
    otherwise; every attribute no key leads to is unset. *)
Theorem load_applies_with_type_check (d : Dict.t StructAttr)
    (e : list message) (c : Dict.t pyval) :
  unique_names d ->
  NoDup (Dict.keys c) ->
  (forall k, In k (Dict.keys c) -> In k (wire_names d)) ->
  exists d',
    load (VDict c) (struct d e) = (Ret tt, struct d' e)
    /\ (forall k v, In (k, v) c ->
          exists n a,
            winner d k = Some n /\ Dict.get d n = Some a /\ jsonName a = k
            /\ Dict.get d' n
               = Some (with_value a (if validate_type a v then v else VNone)))
    /\ (forall n a, Dict.get d n = Some a ->
          (forall k, In k (Dict.keys c) -> winner d k <> Some n) ->
          Dict.get d' n = Some (with_value a VNone)).
Proof.
  intros Hnd Hc Hknown. exists (loaded d c).
  split; [now apply load_known|]. split.
  - intros k v Hin.
    assert (Hk : In k (Dict.keys c)).
    { unfold Dict.keys. change k with (fst (k, v)). now apply in_map. }
    destruct (winner d k) as [n|] eqn:Hw;
      [|apply winner_None in Hw; exfalso; auto].
    destruct (winner_Some _ _ _ Hw) as (a & Hina & Hj).
    exists n, a. repeat split; try assumption.
    + now apply in_get.
    + rewrite get_loaded, (in_get d n a Hnd Hina). cbn [option_map].
      unfold loaded_value. rewrite Hj, Hw, (in_get c k v Hc Hin).
      now rewrite String.eqb_refl.
  - intros n a Hget Hno. rewrite get_loaded, Hget. cbn [option_map].
    do 2 f_equal. unfold loaded_value.
    destruct (Dict.get c (jsonName a)) as [v|] eqn:Hv; [|reflexivity].
    destruct (winner d (jsonName a)) as [m|] eqn:Hw; [|reflexivity].
    destruct (String.eqb_spec n m) as [<-|Hnm]; [|reflexivity].
    exfalso. apply (Hno (jsonName a)); [|assumption].
    apply get_in in Hv. unfold Dict.keys.
    change (jsonName a) with (fst (jsonName a, v)). now apply in_map.
Qed.

Lemma load_applies_with_type_check_witness :
  exists d',
    load (VDict [("name", VInt 5)]) (struct Examples.busybox [])
    = (Ret tt, struct d' [])
    /\ (forall k v, In (k, v) [("name", VInt 5)] ->
          exists n a,
            winner Examples.busybox k = Some n
            /\ Dict.get Examples.busybox n = Some a /\ jsonName a = k
            /\ Dict.get d' n
               = Some (with_value a (if validate_type a v then v else VNone)))
    /\ (forall n a, Dict.get Examples.busybox n = Some a ->
          (forall k, In k ["name"] -> winner Examples.busybox k <> Some n) ->
          Dict.get d' n = Some (with_value a VNone)).
Proof.
  apply (load_applies_with_type_check Examples.busybox [] [("name", VInt 5)]).
  - unfold unique_names. simpl. repeat constructor; simpl; intuition discriminate.
  - simpl. repeat constructor. simpl. tauto.
  - simpl. intros k [<-|[]]. now left.
Defined.

(** C8, as specified, fails: loading [{"name": 5}] into a record whose
    [Name] is text goes through, and [Name] does not hold 5: [set] rejected
    it. *)
Lemma load_drops_mismatched_value :
  load (VDict [("name", VInt 5)]) (struct Examples.unset_name [])
  = (Ret tt, struct Examples.unset_name [])
  /\ ~ stores_every_value Examples.unset_name [("name", VInt 5)].
Proof.
  split; [reflexivity|].
  intros (w' & Hload & Hall).
  vm_compute in Hload. injection Hload as <-.
  destruct (Hall "name" (VInt 5) (or_introl eq_refl)) as (n & a & Hw & Hget & Hv).
  vm_compute in Hw. injection Hw as <-.
  vm_compute in Hget. injection Hget as <-.
  discriminate Hv.
Qed.

(** ** The round trip [to_dict] then [load] *)

Lemma winner_fresh (d : Dict.t StructAttr) (k : string) :
  winner (fresh d) k = winner d k.
Proof.
  induction d as [|[n a] d IH]; simpl; [reflexivity|]. now rewrite IH.
Qed.

Lemma wire_names_fresh (d : Dict.t StructAttr) :
  wire_names (fresh d) = wire_names d.
Proof. unfold wire_names, fresh. rewrite map_map. reflexivity. Qed.

Lemma winner_unique (d : Dict.t StructAttr) (n : string) (a : StructAttr) :
  unique_wire_names d -> In (n, a) d -> winner d (jsonName a) = Some n.
Proof.
  unfold unique_wire_names.
  induction d as [|[n0 a0] d IH]; simpl; intros Hnd Hin; [contradiction|].
  inversion Hnd as [|? ? Hnotin Hnd']; subst.
  destruct Hin as [[= -> ->]|Hin].
  - apply winner_None in Hnotin. rewrite Hnotin.
    now rewrite String.eqb_refl.
  - now rewrite IH.
Qed.

Lemma get_projection (d : Dict.t StructAttr) (n : string) (a : StructAttr) :
  unique_wire_names d -> In (n, a) d ->
  Dict.get (projection d) (jsonName a) = emitted a.
Proof.
  unfold unique_wire_names.
  induction d as [|[n0 a0] d IH]; simpl; intros Hnd Hin; [contradiction|].
  inversion Hnd as [|? ? Hnotin Hnd']; subst.
  destruct Hin as [[= -> ->]|Hin].
  - destruct (emitted a) as [v|]; simpl.
    + now rewrite String.eqb_refl.
    + apply get_None_not_in. intros Hk. apply Hnotin.
      now apply projection_keys.
  - assert (Hne : jsonName a0 <> jsonName a).
    { intros E. apply Hnotin. rewrite E. unfold wire_names.
      change (jsonName a) with ((fun na => jsonName (snd na)) (n, a)).
      now apply in_map. }
    destruct (emitted a0) as [v|]; simpl.
    + destruct (String.eqb_spec (jsonName a0) (jsonName a)); [contradiction|].
      now apply IH.
    + now apply IH.
Qed.

Lemma reloaded_of_valid (a : StructAttr) :
  valid_attr a = true ->
  (truthy (value a) = true -> reloaded a = value a)
  /\ (truthy (value a) = false -> truthy (reloaded a) = false)
  /\ (omitted a = true -> reloaded a = VNone).
Proof.
  unfold valid_attr, reloaded, emitted, omitted, validate_type.
  intros Hv. apply andb_true_iff in Hv as [_ Hty].
  destruct (attType a) as [t|ts]; [|discriminate].
  repeat split.
  - intros ->. now rewrite Hty.
  - intros ->. destruct (omitempty a); [reflexivity|].
    destruct t; reflexivity.
  - intros H. apply andb_true_iff in H as [Ht Ho].
    apply negb_true_iff in Ht. now rewrite Ht, Ho.
Qed.

(** C1, as the code has it: for a record that [validate] accepts and whose
    wire names are pairwise distinct, [to_dict] yields a mapping and [load]
    of it into a fresh record of the same schema goes through; every
    non-empty value is back unchanged, and an attribute whose value was
    empty comes back empty: unset if it was omitted or if the placeholder
    [to_dict] emitted for it fails its type check, the placeholder
    otherwise. *)
Theorem roundtrip_reloads (d : Dict.t StructAttr) (e e' : list message) :
  unique_names d ->
  unique_wire_names d ->
  fst (validate (struct d e)) = Ret true ->
  exists m,
    to_dict (struct d e) = (Ret (VDict m), struct d e)
    /\ load (VDict m) (struct (fresh d) e')
       = (Ret tt,
          struct (map (fun na => (fst na, with_value (snd na) (reloaded (snd na))))
                    d) e')
    /\ Forall (fun na =>
                 (truthy (value (snd na)) = true ->
                  reloaded (snd na) = value (snd na))
                 /\ (truthy (value (snd na)) = false ->
                     truthy (reloaded (snd na)) = false)
                 /\ (omitted (snd na) = true -> reloaded (snd na) = VNone)) d.
Proof.
  intros Hnd Hwire Hv. unfold validate in Hv. revert Hv. run. intros Hv.
  apply validate_loop_true in Hv. unfold struct in Hv. cbn [attrs] in Hv.
  exists (projection d). repeat split.
  - unfold to_dict, validate. run.
    rewrite (validate_loop_valid _ _ Hv). run.
    rewrite (to_dict_loop_valid _ [] _ Hv Hwire) by (intros ? ? []).
    reflexivity.
  - rewrite load_known.
    + do 2 f_equal. unfold loaded, fresh. rewrite map_map.
      apply map_ext_in. intros [n a] Hin. cbn [fst snd]. f_equal.
      unfold loaded_value, reloaded.
      change (jsonName (with_value a VNone)) with (jsonName a).
      rewrite winner_fresh, (winner_unique d n a Hwire Hin).
      rewrite (get_projection d n a Hwire Hin).
      destruct (emitted a) as [v|]; [|reflexivity].
      now rewrite String.eqb_refl.
    + unfold unique_names, fresh.
      now rewrite (keys_map_snd (fun na => with_value (snd na) VNone)).
    + now apply projection_NoDup.
    + intros k Hk. rewrite wire_names_fresh. now apply projection_keys.
  - apply Forall_forall. intros [n a] Hin. cbn [snd].
    apply reloaded_of_valid.
    apply (proj1 (forallb_forall _ _) Hv).
    change a with (snd (n, a)). now apply in_map.
Qed.

Lemma roundtrip_reloads_witness :
  unique_names Examples.image_record
  /\ unique_wire_names Examples.image_record
  /\ fst (validate (struct Examples.image_record [])) = Ret true
  /\ exists m,
       to_dict (struct Examples.image_record [])
       = (Ret (VDict m), struct Examples.image_record [])
       /\ load (VDict m) (struct (fresh Examples.image_record) [])
          = (Ret tt,
             struct (map (fun na =>
                            (fst na, with_value (snd na) (reloaded (snd na))))
                       Examples.image_record) [])
       /\ Forall (fun na =>
                    (truthy (value (snd na)) = true ->
                     reloaded (snd na) = value (snd na))
                    /\ (truthy (value (snd na)) = false ->
                        truthy (reloaded (snd na)) = false)
                    /\ (omitted (snd na) = true -> reloaded (snd na) = VNone))
            Examples.image_record.
Proof.
  assert (Hn : unique_names Examples.image_record).
  { unfold unique_names. simpl.
    repeat constructor; simpl; intuition discriminate. }
  assert (Hw : unique_wire_names Examples.image_record).
  { unfold unique_wire_names. simpl.
    repeat constructor; simpl; intuition discriminate. }
  split; [exact Hn|]. split; [exact Hw|]. split; [reflexivity|].
  apply (roundtrip_reloads Examples.image_record [] [] Hn Hw).
  reflexivity.
Defined.

(** The round trip of [Examples.image_record] in full: "busybox" and 7 are
    back, the empty mapping that was omitted is unset, the empty text comes
    back as the empty text, and the 0 that was emitted as [None] is
    unset. *)
Lemma roundtrip_image_record :
  to_dict (struct Examples.image_record [])
  = (Ret (VDict [("name", VStr "busybox"); ("size", VInt 7);
                 ("note", VStr EmptyString); ("count", VNone)]),
     struct Examples.image_record [])
  /\ map (fun na => (fst na, value (snd na)))
       (attrs (snd (load (VDict [("name", VStr "busybox"); ("size", VInt 7);
                                 ("note", VStr EmptyString); ("count", VNone)])
                      (struct (fresh Examples.image_record) []))))
     = [("Name", VStr "busybox"); ("Size", VInt 7); ("Labels", VNone);
        ("Note", VStr EmptyString); ("Count", VNone)].
Proof. split; reflexivity. Qed.

(** C1, as specified, fails.  An optional integer with omitempty off that
    holds 0 is emitted as [None], which [set] rejects, so it comes back
    unset although it was not omitted; and of two attributes that share a
    wire name only the last one gets its value back. *)
Lemma roundtrip_loses_emitted_empty_value :
  (populated Examples.zero_size /\ ~ roundtrip_as_specified Examples.zero_size)
  /\ (populated Examples.same_wire /\ ~ roundtrip_as_specified Examples.same_wire).
Proof.
  split; split.
  - repeat constructor. discriminate.
  - intros (m & w' & Hd & Hl & Hattrs).
    vm_compute in Hd. injection Hd as <-.
    vm_compute in Hl. injection Hl as <-.
    discriminate Hattrs.
  - repeat constructor; discriminate.
  - intros (m & w' & Hd & Hl & Hattrs).
    vm_compute in Hd. injection Hd as <-.
    vm_compute in Hl. injection Hl as <-.
    discriminate Hattrs.
Qed.

(** * Further properties of the attribute model *)

(** ** Declaring attributes *)

Lemma newAttr_run (n : string) (t : atttype) (r : bool) (j : option string)
    (o : bool) (w : world) :
  newAttr n t r j o w
  = if Dict.mem (attrs w) n then (Exit (AlreadyAdded n), w)
    else (Ret tt,
          {| attrs := attrs w ++ [(n, StructAttr_init n t r j VNone o)];
             errors := errors w |}).
Proof.
  unfold newAttr, Dict.mem. run.
  destruct (Dict.get (attrs w) n) eqn:E; run; [reflexivity|].
  rewrite set_fresh_key by (now apply get_None_not_in). reflexivity.
Qed.

(** X1: [newAttr] with a name that is already declared exits fatally and
    leaves the record as it was; with a new name it appends the attribute,
    unset, after the declared ones, whose order and values it keeps, and
    reports nothing. *)
Theorem newAttr_appends_or_exits (n : string) (t : atttype) (r : bool)
    (j : option string) (o : bool) (w : world) :
  newAttr n t r j o w
  = if Dict.mem (attrs w) n then (Exit (AlreadyAdded n), w)
    else (Ret tt,
          {| attrs := attrs w ++ [(n, StructAttr_init n t r j VNone o)];
             errors := errors w |}).
Proof. apply newAttr_run. Qed.

Lemma mem_false_get {V} (d : Dict.t V) (k : string) :
  Dict.mem d k = false <-> Dict.get d k = None.
Proof. unfold Dict.mem. destruct (Dict.get d k); split; congruence. Qed.

Lemma keys_app {V} (d1 d2 : Dict.t V) :
  Dict.keys (d1 ++ d2) = Dict.keys d1 ++ Dict.keys d2.
Proof. unfold Dict.keys. apply map_app. Qed.

Lemma declare_run (ds : list declaration) :
  forall w,
    NoDup (map d_name ds) ->
    (forall x, In x ds -> ~ In (d_name x) (Dict.keys (attrs w))) ->
    declare ds w
    = (Ret tt,
       {| attrs := attrs w
                   ++ map (fun x => (d_name x,
                                     StructAttr_init (d_name x) (d_attType x)
                                       (d_required x) (d_jsonName x) VNone
                                       (d_omitempty x))) ds;
          errors := errors w |}).
Proof.
  unfold declare.
  induction ds as [|x ds IH]; intros w Hnd Hnew; cbn [for_each map].
  - unfold ret. rewrite app_nil_r. now destruct w.
  - inversion Hnd as [|? ? Hx Hnd']; subst.
    run. rewrite newAttr_run.
    assert (Hm : Dict.mem (attrs w) (d_name x) = false).
    { apply mem_false_get, get_None_not_in. apply Hnew. now left. }
    rewrite Hm. rewrite IH; [|assumption|].
    + cbn [attrs errors]. now rewrite <- app_assoc.
    + intros y Hy. cbn [attrs]. rewrite keys_app. intros Hin.
      apply in_app_or in Hin. destruct Hin as [Hin|[Hin|[]]].
      * apply (Hnew y); [now right | assumption].
      * apply Hx. simpl in Hin. rewrite Hin. now apply in_map.
Qed.

Lemma declare_Ret_distinct (ds : list declaration) :
  forall w,
    fst (declare ds w) = Ret tt ->
    NoDup (map d_name ds)
    /\ forall x, In x ds -> ~ In (d_name x) (Dict.keys (attrs w)).
Proof.
  unfold declare.
  induction ds as [|x ds IH]; intros w H; cbn [for_each map] in *.
  - split; [constructor | intros x []].
  - revert H. run. rewrite newAttr_run.
    destruct (Dict.mem (attrs w) (d_name x)) eqn:Hm; [discriminate|].
    intros H. apply IH in H as [Hnd Hnew]. cbn [attrs] in Hnew.
    apply mem_false_get, get_None_not_in in Hm.
    assert (Hx : ~ In (d_name x) (map d_name ds)).
    { intros Hin. apply in_map_iff in Hin as (y & Hy & Hin).
      apply (Hnew y Hin). rewrite keys_app. apply in_or_app. right.
      rewrite Hy. now left. }
    split; [now constructor|].
    intros y [<-|Hy]; [assumption|].
    intros Hin. apply (Hnew y Hy). rewrite keys_app. apply in_or_app. now left.
Qed.

(** X2: a run of [newAttr] calls on a record without attributes goes
    through exactly when the declared names are pairwise distinct, and then
    the record holds one unset attribute per declaration, in the order of
    the calls. *)
Theorem declare_distinct_names (ds : list declaration) (e : list message) :
  (fst (declare ds (struct [] e)) = Ret tt <-> NoDup (map d_name ds))
  /\ (NoDup (map d_name ds) ->
      declare ds (struct [] e)
      = (Ret tt,
         struct (map (fun x => (d_name x,
                                StructAttr_init (d_name x) (d_attType x)
                                  (d_required x) (d_jsonName x) VNone
                                  (d_omitempty x))) ds) e)).
Proof.
  assert (Hrun : NoDup (map d_name ds) ->
      declare ds (struct [] e)
      = (Ret tt,
         struct (map (fun x => (d_name x,
                                StructAttr_init (d_name x) (d_attType x)
                                  (d_required x) (d_jsonName x) VNone
                                  (d_omitempty x))) ds) e)).
  { intros Hnd. rewrite declare_run; [reflexivity | assumption |].
    intros x _ []. }
  split; [|exact Hrun]. split.
  - intros H. now apply declare_Ret_distinct in H.
  - intros Hnd. now rewrite Hrun.
Qed.

(** ** The jsonName lookup, continued *)

Lemma winner_last (d1 d2 : Dict.t StructAttr) (n : string) (a : StructAttr) :
  ~ In (jsonName a) (wire_names d2) ->
  winner (d1 ++ (n, a) :: d2) (jsonName a) = Some n.
Proof.
  intros Hlast. induction d1 as [|[n0 a0] d1 IH]; simpl.
  - apply winner_None in Hlast. rewrite Hlast.
    now rewrite String.eqb_refl.
  - now rewrite IH.
Qed.

(** X3: [generate_json_lookup] changes nothing; the lookup it returns has
    an entry for a key exactly when some attribute has that key as wire
    name, every entry leads to an attribute with that wire name, and of
    several attributes with one wire name the last declared is the one the
    lookup holds. *)
Theorem generate_json_lookup_last_declared (w : world) :
  exists lookup,
    generate_json_lookup w = (Ret lookup, w)
    /\ (forall k, Dict.get lookup k = None <-> ~ In k (wire_names (attrs w)))
    /\ (forall k n, Dict.get lookup k = Some n ->
          exists a, In (n, a) (attrs w) /\ jsonName a = k)
    /\ (forall d1 n a d2,
          attrs w = d1 ++ (n, a) :: d2 ->
          ~ In (jsonName a) (wire_names d2) ->
          Dict.get lookup (jsonName a) = Some n).
Proof.
  exists (json_lookup (attrs w)).
  split; [reflexivity|]. split; [|split].
  - intros k. rewrite get_json_lookup. apply winner_None.
  - intros k n H. rewrite get_json_lookup in H. now apply winner_Some.
  - intros d1 n a d2 E Hlast. rewrite get_json_lookup, E.
    now apply winner_last.
Qed.

(** X4: after [newAttr] went through, the wire name of the new attribute,
    which is its jsonName or, when that is missing or empty, its name,
    leads to the new attribute in the jsonName lookup, whatever earlier
    attribute had that wire name. *)
Theorem newAttr_takes_wire_name (n : string) (t : atttype) (r : bool)
    (j : option string) (o : bool) (w : world) :
  Dict.mem (attrs w) n = false ->
  let k := match j with
           | Some s => if (s =? EmptyString)%string then n else s
           | None => n
           end in
  exists w' lookup,
    newAttr n t r j o w = (Ret tt, w')
    /\ generate_json_lookup w' = (Ret lookup, w')
    /\ Dict.get lookup k = Some n.
Proof.
  intros Hm k. rewrite newAttr_run, Hm.
  eexists. exists (json_lookup (attrs w ++ [(n, StructAttr_init n t r j VNone o)])).
  split; [reflexivity|]. split; [reflexivity|].
  rewrite get_json_lookup.
  apply (winner_last (attrs w) [] n (StructAttr_init n t r j VNone o)).
  intros [].
Qed.

Lemma newAttr_takes_wire_name_witness :
  exists w' lookup,
    newAttr "Label" (Scalar TStr) false None true (struct Examples.same_wire [])
    = (Ret tt, w')
    /\ generate_json_lookup w' = (Ret lookup, w')
    /\ Dict.get lookup "Label" = Some "Label".
Proof.
  apply (newAttr_takes_wire_name "Label" (Scalar TStr) false None true
           (struct Examples.same_wire [])).
  reflexivity.
Defined.

Lemma declare_distinct_names_witness :
  NoDup (map d_name Examples.image_schema)
  /\ declare Examples.image_schema (struct [] [])
     = (Ret tt,
        struct (map (fun x => (d_name x,
                               StructAttr_init (d_name x) (d_attType x)
                                 (d_required x) (d_jsonName x) VNone
                                 (d_omitempty x))) Examples.image_schema) []).
Proof.
  assert (Hnd : NoDup (map d_name Examples.image_schema)).
  { simpl. repeat constructor; simpl; intuition discriminate. }
  split; [exact Hnd|].
  exact (proj2 (declare_distinct_names Examples.image_schema []) Hnd).
Defined.

(** ** Clearing and adding values *)

(** X5: [_clear_values] unsets the value of every attribute and changes
    nothing else: names, order, types, flags and wire names stay, nothing is
    reported, and a second call changes nothing more. *)
Theorem clear_values_unsets_all (d : Dict.t StructAttr) (e : list message) :
  unique_names d ->
  _clear_values (struct d e) = (Ret tt, struct (fresh d) e)
  /\ (_clear_values ;;; _clear_values) (struct d e) = (Ret tt, struct (fresh d) e)
  /\ (forall n a, Dict.get d n = Some a ->
        Dict.get (fresh d) n = Some (with_value a VNone))
  /\ Dict.keys (fresh d) = Dict.keys d.
Proof.
  intros Hnd.
  assert (Hk : Dict.keys (fresh d) = Dict.keys d).
  { unfold fresh. apply (keys_map_snd (fun na => with_value (snd na) VNone)). }
  split; [now apply clear_values_fresh|]. split; [|split].
  - unfold bind. rewrite clear_values_fresh by assumption.
    rewrite clear_values_fresh by (unfold unique_names; now rewrite Hk).
    do 2 f_equal. unfold fresh. rewrite map_map. apply map_ext.
    now intros [n a].
  - intros n a Hget. unfold fresh.
    rewrite (get_map_snd (fun _ a => with_value a VNone)), Hget. reflexivity.
  - exact Hk.
Qed.

Lemma clear_values_unsets_all_witness :
  _clear_values (struct Examples.same_wire [])
  = (Ret tt, struct (fresh Examples.same_wire) [])
  /\ (_clear_values ;;; _clear_values) (struct Examples.same_wire [])
     = (Ret tt, struct (fresh Examples.same_wire) [])
  /\ (forall n a, Dict.get Examples.same_wire n = Some a ->
        Dict.get (fresh Examples.same_wire) n = Some (with_value a VNone))
  /\ Dict.keys (fresh Examples.same_wire) = Dict.keys Examples.same_wire.
Proof.
  apply (clear_values_unsets_all Examples.same_wire []).
  unfold unique_names. simpl. repeat constructor; simpl; intuition discriminate.
Defined.

Lemma update_at {V} (d : Dict.t V) (k : string) (f g : V -> V) (v : V) :
  Dict.get d k = Some v -> f v = g v -> Dict.update d k f = Dict.update d k g.
Proof.
  induction d as [|[k0 v0] d IH]; simpl; [discriminate|].
  destruct (k0 =? k)%string.
  - intros [= ->] ->. reflexivity.
  - intros Hget Hfg. f_equal. now apply IH.
Qed.

Lemma update_same {V} (d : Dict.t V) (k : string) (f : V -> V) (v : V) :
  Dict.get d k = Some v -> f v = v -> Dict.update d k f = d.
Proof.
  induction d as [|[k0 v0] d IH]; simpl; [discriminate|].
  destruct (k0 =? k)%string.
  - intros [= ->] ->. reflexivity.
  - intros Hget Hf. f_equal. now apply IH.
Qed.

Lemma keys_update {V} (d : Dict.t V) (k : string) (f : V -> V) :
  Dict.keys (Dict.update d k f) = Dict.keys d.
Proof.
  induction d as [|[k0 v0] d IH]; simpl; [reflexivity|].
  destruct (k0 =? k)%string; simpl; [reflexivity | now rewrite IH].
Qed.

(** What [add] does, case by case. *)
Lemma add_run (n : string) (v : pyval) (w : world) :
  add n v w
  = match Dict.get (attrs w) n with
    | None => (Exit (NotValidAttribute n), w)
    | Some a =>
        if truthy v then
          if validate_type a v then
            (Ret tt,
             {| attrs := Dict.update (attrs w) n (fun a => with_value a v);
                errors := errors w |})
          else (Exit (MustBeType n (attType a)), w)
        else (Ret tt, w)
    end.
Proof.
  unfold add, Dict.mem. run.
  destruct (Dict.get (attrs w) n) as [a|] eqn:E; run; [|reflexivity].
  destruct (truthy v); run; [|reflexivity].
  rewrite E. run. unfold set.
  destruct (validate_type a v) eqn:Hv; run.
  - do 2 f_equal. apply (update_at _ _ _ _ a E). now rewrite Hv.
  - rewrite (update_same _ _ _ a E) by now rewrite Hv.
    now destruct w.
Qed.

(** X6: [add] with a non-empty value that passes the type check of a
    declared attribute stores the value in that attribute and returns; the
    other attributes, the order of the attributes and the logger are left
    alone. *)
Theorem add_stores_valid_value (w : world) (n : string) (a : StructAttr)
    (v : pyval) :
  Dict.get (attrs w) n = Some a ->
  truthy v = true ->
  validate_type a v = true ->
  exists d',
    add n v w = (Ret tt, {| attrs := d'; errors := errors w |})
    /\ Dict.get d' n = Some (with_value a v)
    /\ (forall m, m <> n -> Dict.get d' m = Dict.get (attrs w) m)
    /\ Dict.keys d' = Dict.keys (attrs w).
Proof.
  intros Hget Ht Hv. rewrite add_run, Hget, Ht, Hv.
  eexists. split; [reflexivity|]. split; [|split].
  - rewrite get_update, String.eqb_refl, Hget. reflexivity.
  - intros m Hm. rewrite get_update.
    destruct (String.eqb_spec n m); [congruence | reflexivity].
  - apply keys_update.
Qed.

Lemma add_stores_valid_value_witness :
  exists d',
    add "Tags" (VList [VStr "latest"]) (struct Examples.busybox [])
    = (Ret tt, {| attrs := d'; errors := [] |})
    /\ Dict.get d' "Tags"
       = Some (mkAttr "Tags" (VList [VStr "latest"]) (InList [TStr]) false
                 "Tags" true)
    /\ (forall m, m <> "Tags" ->
          Dict.get d' m = Dict.get Examples.busybox m)
    /\ Dict.keys d' = Dict.keys Examples.busybox.
Proof.
  apply (add_stores_valid_value (struct Examples.busybox []) "Tags"
           (mkAttr "Tags" VNone (InList [TStr]) false "Tags" true)
           (VList [VStr "latest"])); reflexivity.
Defined.

(** X7: [add] never raises; it fails, fatally, in two cases only: the name
    is not declared, or the value is non-empty and fails the type check of
    the attribute.  In both the record is left exactly as it was. *)
Theorem add_failure_leaves_record (w : world) (n : string) (v : pyval) :
  match add n v w with
  | (Ret _, _) => True
  | (Exit msg, w') =>
      w' = w
      /\ ((msg = NotValidAttribute n /\ Dict.get (attrs w) n = None)
          \/ exists a, Dict.get (attrs w) n = Some a
                       /\ msg = MustBeType n (attType a)
                       /\ truthy v = true /\ validate_type a v = false)
  | (Raise _, _) => False
  end.
Proof.
  rewrite add_run.
  destruct (Dict.get (attrs w) n) as [a|] eqn:E.
  - destruct (truthy v) eqn:Ht; [|exact I].
    destruct (validate_type a v) eqn:Hv; [exact I|].
    split; [reflexivity|]. right. exists a. auto.
  - split; [reflexivity|]. now left.
Qed.

(** ** [validate], continued *)

Lemma validate_loop_outcome (items : list (string * StructAttr)) (w : world) :
  match validate_loop items w with
  | (Ret true, w') => w' = w
  | (Ret false, w') =>
      exists n a,
        In (n, a) items
        /\ ((required a = true /\ truthy (value a) = false
             /\ w' = {| attrs := attrs w; errors := errors w ++ [IsRequired n] |})
            \/ (exists t, attType a = Scalar t
                          /\ isinstance (value a) t = false
                          /\ w' = {| attrs := attrs w;
                                     errors := errors w
                                               ++ [ShouldBeType n (attType a)] |}))
  | (Exit _, _) => False
  | (Raise e, w') => e = TypeError_isinstance_arg2 /\ w' = w
  end.
Proof.
  induction items as [|[n a] items IH]; simpl.
  - reflexivity.
  - destruct (required a && negb (truthy (value a))) eqn:Hreq.
    + run. apply andb_true_iff in Hreq as [Hr Ht].
      apply negb_true_iff in Ht.
      exists n, a. split; [now left|]. left. auto.
    + destruct (attType a) as [t|ts] eqn:Hty.
      * destruct (isinstance (value a) t) eqn:Hi; simpl.
        -- destruct (validate_loop items w) as [[[|]|msg|x] w']; try assumption.
           destruct IH as (n' & a' & Hin & H).
           exists n', a'. split; [now right | assumption].
        -- run. exists n, a. split; [now left|]. right.
           exists t. rewrite Hty. auto.
      * unfold raise. auto.
Qed.

(** X8: [validate] never touches the attributes and never exits.  When it
    returns [True] nothing was reported; when it returns [False] exactly one
    error was reported, for one attribute that is required and empty or
    whose value is no instance of its type; when the type check raises,
    nothing was reported. *)
Theorem validate_reports_once (w : world) :
  match validate w with
  | (Ret true, w') => w' = w
  | (Ret false, w') =>
      exists n a,
        In (n, a) (attrs w)
        /\ ((required a = true /\ truthy (value a) = false
             /\ w' = {| attrs := attrs w; errors := errors w ++ [IsRequired n] |})
            \/ (exists t, attType a = Scalar t
                          /\ isinstance (value a) t = false
                          /\ w' = {| attrs := attrs w;
                                     errors := errors w
                                               ++ [ShouldBeType n (attType a)] |}))
  | (Exit _, _) => False
  | (Raise e, w') => e = TypeError_isinstance_arg2 /\ w' = w
  end.
Proof. unfold validate. run. apply validate_loop_outcome. Qed.

Lemma valid_attr_spec (a : StructAttr) :
  valid_attr a = true
  <-> (required a = true -> truthy (value a) = true)
      /\ exists t, attType a = Scalar t /\ isinstance (value a) t = true.
Proof.
  unfold valid_attr. rewrite andb_true_iff, negb_true_iff. split.
  - intros [Hreq Hty]. split.
    + intros Hr. rewrite Hr in Hreq. simpl in Hreq.
      now apply negb_false_iff in Hreq.
    + destruct (attType a) as [t|ts]; [eauto | discriminate].
  - intros [Hreq (t & Ht & Hi)]. rewrite Ht. split; [|assumption].
    destruct (required a); [|reflexivity].
    now rewrite Hreq.
Qed.

Lemma validate_true_iff (w : world) :
  fst (validate w) = Ret true
  <-> forallb valid_attr (map snd (attrs w)) = true.
Proof.
  unfold validate. run. split.
  - apply validate_loop_true.
  - intros H. now rewrite validate_loop_valid.
Qed.

(** X9: [validate] returns [True] exactly when every attribute has a type
    that is given as a class, not in a list, holds an instance of it, and,
    if required, holds a non-empty value. *)
Theorem validate_accepts_iff (w : world) :
  fst (validate w) = Ret true
  <-> Forall (fun na =>
                (required (snd na) = true -> truthy (value (snd na)) = true)
                /\ exists t, attType (snd na) = Scalar t
                             /\ isinstance (value (snd na)) t = true)
        (attrs w).
Proof.
  rewrite validate_true_iff, forallb_forall, Forall_forall. split.
  - intros H [n a] Hin. apply valid_attr_spec. apply H.
    change a with (snd (n, a)). now apply in_map.
  - intros H a Hin. apply in_map_iff in Hin as ([n a'] & <- & Hin).
    apply valid_attr_spec. apply (H _ Hin).
Qed.

Lemma to_dict_needs_validate (w w' : world) (m : Dict.t pyval) :
  to_dict w = (Ret (VDict m), w') -> fst (validate w) = Ret true.
Proof.
  unfold to_dict. run.
  destruct (validate w) as [[[|]|msg|x] w1]; try discriminate; reflexivity.
Qed.

Lemma to_json_needs_validate (w w' : world) (s : string) :
  to_json w = (Ret (VStr s), w') -> fst (validate w) = Ret true.
Proof.
  unfold to_json. run.
  destruct (to_dict w) as [[r|msg|x] w1] eqn:E; try discriminate.
  destruct (to_dict_dict_or_None _ _ _ E) as [->|[m ->]].
  - discriminate.
  - intros _. now apply (to_dict_needs_validate w w1 m).
Qed.

(** X10: a record with an attribute whose type is given in a list, as
    [[str]], is never accepted by [validate], whatever the values: so
    [to_dict] never yields a mapping for it and [to_json] never yields
    text. *)
Theorem list_typed_attribute_never_validates (w : world) (n : string)
    (a : StructAttr) (ts : list pytype) :
  In (n, a) (attrs w) ->
  attType a = InList ts ->
  fst (validate w) <> Ret true
  /\ (forall m, fst (to_dict w) <> Ret (VDict m))
  /\ (forall s, fst (to_json w) <> Ret (VStr s)).
Proof.
  intros Hin Hty.
  assert (Hno : fst (validate w) <> Ret true).
  { intros H. apply validate_true_iff in H.
    assert (Ha : valid_attr a = true).
    { apply (proj1 (forallb_forall _ _) H).
      change a with (snd (n, a)). now apply in_map. }
    apply valid_attr_spec in Ha as [_ (t & Ht & _)]. congruence. }
  split; [assumption|]. split.
  - intros m H. apply Hno.
    destruct (to_dict w) as [r w'] eqn:E. simpl in H. subst r.
    now apply (to_dict_needs_validate w w' m).
  - intros s H. apply Hno.
    destruct (to_json w) as [r w'] eqn:E. simpl in H. subst r.
    now apply (to_json_needs_validate w w' s).
Qed.

Lemma list_typed_attribute_never_validates_witness :
  fst (validate (struct Examples.busybox [])) <> Ret true
  /\ (forall m, fst (to_dict (struct Examples.busybox [])) <> Ret (VDict m))
  /\ (forall s, fst (to_json (struct Examples.busybox [])) <> Ret (VStr s)).
Proof.
  apply (list_typed_attribute_never_validates (struct Examples.busybox [])
           "Tags" (mkAttr "Tags" VNone (InList [TStr]) false "Tags" true)
           [TStr]).
  - simpl. auto.
  - reflexivity.
Defined.

(** X11: a record with an attribute that is unset, required or not, is
    never accepted by [validate] unless the type of that attribute is
    [object] or the type of [None]: [to_dict] never yields a mapping for
    it. *)
Theorem unset_attribute_never_validates (w : world) (n : string)
    (a : StructAttr) :
  In (n, a) (attrs w) ->
  value a = VNone ->
  attType a <> Scalar TObject ->
  attType a <> Scalar TNoneType ->
  fst (validate w) <> Ret true
  /\ forall m, fst (to_dict w) <> Ret (VDict m).
Proof.
  intros Hin Hv Hobj Hnone.
  assert (Hno : fst (validate w) <> Ret true).
  { intros H. apply validate_true_iff in H.
    assert (Ha : valid_attr a = true).
    { apply (proj1 (forallb_forall _ _) H).
      change a with (snd (n, a)). now apply in_map. }
    apply valid_attr_spec in Ha as [_ (t & Ht & Hi)].
    rewrite Hv in Hi. destruct t; try discriminate; congruence. }
  split; [assumption|].
  intros m H. apply Hno.
  destruct (to_dict w) as [r w'] eqn:E. simpl in H. subst r.
  now apply (to_dict_needs_validate w w' m).
Qed.

Lemma unset_attribute_never_validates_witness :
  fst (validate (struct Examples.unset_name [])) <> Ret true
  /\ forall m, fst (to_dict (struct Examples.unset_name [])) <> Ret (VDict m).
Proof.
  apply (unset_attribute_never_validates (struct Examples.unset_name [])
           "Name" (mkAttr "Name" VNone (Scalar TStr) false "name" true)).
  - simpl. auto.
  - reflexivity.
  - discriminate.
  - discriminate.
Defined.

(** ** [to_dict] and [to_json], continued *)

Lemma to_dict_loop_scalar (items : list (string * StructAttr)) :
  forall (result : Dict.t pyval) (w : world),
    forallb valid_attr (map snd items) = true ->
    exists m, to_dict_loop items result w = (Ret m, w).
Proof.
  induction items as [|[n a] items IH]; intros result w Hv; simpl.
  - eexists. reflexivity.
  - simpl in Hv. apply andb_true_iff in Hv as [Ha Hrest].
    destruct (negb (truthy (value a)) && omitempty a); [now apply IH|].
    destruct (negb (truthy (value a))); [|now apply IH].
    apply valid_attr_spec in Ha as [_ (t & -> & _)]. now apply IH.
Qed.

Lemma to_dict_outcome (w : world) :
  attrs (snd (to_dict w)) = attrs w
  /\ snd (to_json w) = snd (to_dict w)
  /\ (fst (to_dict w) = Ret VNone <-> fst (validate w) = Ret false)
  /\ (forall e, fst (to_dict w) = Raise e -> e = TypeError_isinstance_arg2)
  /\ (forall msg, fst (to_dict w) <> Exit msg).
Proof.
  assert (Hjson : snd (to_json w) = snd (to_dict w)).
  { unfold to_json. run. destruct (to_dict w) as [[r|msg|x] w']; try reflexivity.
    now destruct (truthy r). }
  split; [|split; [exact Hjson|]]; clear Hjson.
  all: pose proof (validate_loop_outcome (attrs w) w) as Hout.
  all: pose proof (validate_loop_true (attrs w) w) as Htrue.
  all: unfold to_dict, validate; run.
  all: destruct (validate_loop (attrs w) w) as [[[|]|msg|x] w1] eqn:Ev.
  all: try contradiction.
  all: try (subst w1;
            destruct (to_dict_loop_scalar (attrs w) [] w (Htrue eq_refl))
              as (m & Hm);
            run; rewrite Hm; run;
            repeat split; try discriminate; reflexivity).
  all: try (run;
            destruct Hout as (n & a & _ & [(_ & _ & ->)|(t & _ & _ & ->)]);
            repeat split; try discriminate; reflexivity).
  all: destruct Hout as [-> ->].
  all: repeat split; try discriminate; try reflexivity.
  all: now intros e [= <-].
Qed.

(** X12: [to_dict] and [to_json] never change an attribute and never exit:
    [to_json] leaves the state [to_dict] leaves, which has the attributes
    as they were.  [to_dict] returns [None] exactly when [validate] returns
    [False], and then [to_json] returns [None] too; the only exception
    [to_dict] raises is the [TypeError] of the type check of [validate]: the
    placeholder table is never asked for a type given in a list. *)
Theorem to_dict_keeps_attributes (w : world) :
  attrs (snd (to_dict w)) = attrs w
  /\ snd (to_json w) = snd (to_dict w)
  /\ attrs (snd (to_json w)) = attrs w
  /\ (fst (to_dict w) = Ret VNone <-> fst (validate w) = Ret false)
  /\ (fst (validate w) = Ret false -> fst (to_json w) = Ret VNone)
  /\ (forall e, fst (to_dict w) = Raise e -> e = TypeError_isinstance_arg2)
  /\ (forall msg, fst (to_dict w) <> Exit msg)
  /\ (forall msg, fst (to_json w) <> Exit msg).
Proof.
  destruct (to_dict_outcome w) as (Hattrs & Hjson & Hnone & Hraise & Hexit).
  assert (Hj : forall msg, fst (to_json w) = Exit msg ->
                           fst (to_dict w) = Exit msg).
  { unfold to_json. run. destruct (to_dict w) as [[r|msg'|x] w']; simpl;
      try discriminate; [|now intros msg H].
    intros msg. now destruct (truthy r). }
  repeat split; try assumption.
  - now rewrite Hjson.
  - now apply Hnone.
  - now apply Hnone.
  - intros Hv. apply Hnone in Hv. revert Hv.
    unfold to_json. run. destruct (to_dict w) as [[r|msg'|x] w']; simpl;
      try discriminate.
    now intros [= ->].
  - intros msg H. apply (Hexit msg). now apply Hj.
Qed.

Lemma projection_keys_filter (items : list (string * StructAttr)) :
  forallb valid_attr (map snd items) = true ->
  Dict.keys (projection items)
  = wire_names (filter (fun na => negb (omitted (snd na))) items).
Proof.
  induction items as [|[n a] items IH]; simpl; intros Hv; [reflexivity|].
  apply andb_true_iff in Hv as [Ha Hrest].
  rewrite keys_app, IH by assumption.
  apply valid_attr_spec in Ha as [_ (t & Ht & _)].
  unfold emitted, omitted. rewrite Ht.
  destruct (truthy (value a)); simpl; [reflexivity|].
  destruct (omitempty a); reflexivity.
Qed.

(** X13: for a record [validate] accepts and whose wire names are pairwise
    distinct, the mapping of [to_dict] has one entry per attribute that is
    not both empty and omitempty, in declaration order, under the wire name
    of the attribute; the entry is the value if it is non-empty and the
    placeholder of the attribute's type otherwise. *)
Theorem to_dict_in_declaration_order (w : world) :
  fst (validate w) = Ret true ->
  unique_wire_names (attrs w) ->
  exists m,
    to_dict w = (Ret (VDict m), w)
    /\ Dict.keys m
       = wire_names (filter (fun na => negb (omitted (snd na))) (attrs w))
    /\ forall n a, In (n, a) (attrs w) ->
         exists t, attType a = Scalar t
                   /\ Dict.get m (jsonName a)
                      = if omitted a then None
                        else Some (if truthy (value a) then value a
                                   else empty_lookup t).
Proof.
  intros Hv Hwire. apply validate_true_iff in Hv.
  exists (projection (attrs w)). split; [|split].
  - unfold to_dict, validate. run.
    rewrite (validate_loop_valid _ _ Hv). run.
    rewrite (to_dict_loop_valid _ [] _ Hv Hwire) by (intros ? ? []).
    reflexivity.
  - now apply projection_keys_filter.
  - intros n a Hin.
    assert (Ha : valid_attr a = true).
    { apply (proj1 (forallb_forall _ _) Hv).
      change a with (snd (n, a)). now apply in_map. }
    apply valid_attr_spec in Ha as [_ (t & Ht & _)].
    exists t. split; [assumption|].
    rewrite (get_projection _ n a Hwire Hin).
    unfold emitted, omitted. rewrite Ht.
    destruct (truthy (value a)); simpl; [reflexivity|].
    destruct (omitempty a); reflexivity.
Qed.

Lemma to_dict_in_declaration_order_witness :
  exists m,
    to_dict (struct Examples.zero_size []) = (Ret (VDict m), struct Examples.zero_size [])
    /\ Dict.keys m
       = wire_names (filter (fun na => negb (omitted (snd na))) Examples.zero_size)
    /\ forall n a, In (n, a) Examples.zero_size ->
         exists t, attType a = Scalar t
                   /\ Dict.get m (jsonName a)
                      = if omitted a then None
                        else Some (if truthy (value a) then value a
                                   else empty_lookup t).
Proof.
  apply (to_dict_in_declaration_order (struct Examples.zero_size [])).
  - reflexivity.
  - unfold unique_wire_names. simpl. repeat constructor. simpl. tauto.
Defined.

(** ** [load], continued *)

Lemma load_check_cases (lookup : Dict.t string) (c : Dict.t pyval) (w : world) :
  (for_each c (load_check lookup) w = (Ret tt, w)
   /\ forall k, In k (Dict.keys c) -> Dict.get lookup k <> None)
  \/ exists k, In k (Dict.keys c) /\ Dict.get lookup k = None
               /\ for_each c (load_check lookup) w
                  = (Exit (NotValidJsonAttribute k), w).
Proof.
  induction c as [|[k v] c IH]; simpl.
  - left. split; [reflexivity | intros k []].
  - unfold bind. simpl. destruct (Dict.get lookup k) eqn:E; simpl.
    + destruct IH as [[Hrun Hall]|(k' & Hin & Hk' & Hrun)].
      * left. split; [assumption|]. intros k' [<-|Hin]; [congruence | auto].
      * right. exists k'. auto.
    + right. exists k. auto.
Qed.

Lemma clear_loop_total (items : list (string * StructAttr)) :
  forall w,
    exists d',
      for_each items clear_value w
      = (Ret tt, {| attrs := d'; errors := errors w |})
      /\ Dict.keys d' = Dict.keys (attrs w).
Proof.
  induction items as [|[n a] items IH]; intros w; cbn [for_each].
  - exists (attrs w). split; [now destruct w | reflexivity].
  - run. unfold clear_value at 1. run.
    destruct (IH {| attrs := Dict.update (attrs w) n (fun a => with_value a VNone);
                    errors := errors w |}) as (d' & Hrun & Hk).
    exists d'. rewrite Hrun. split; [reflexivity|].
    rewrite Hk. apply keys_update.
Qed.

Lemma load_apply_total (lookup : Dict.t string) (c : Dict.t pyval) :
  forall w,
    (forall k, In k (Dict.keys c) ->
       exists n, Dict.get lookup k = Some n /\ In n (Dict.keys (attrs w))) ->
    exists d',
      for_each c (load_apply lookup) w
      = (Ret tt, {| attrs := d'; errors := errors w |})
      /\ Dict.keys d' = Dict.keys (attrs w).
Proof.
  induction c as [|[k v] c IH]; intros w Hknown; cbn [for_each].
  - exists (attrs w). split; [now destruct w | reflexivity].
  - destruct (Hknown k (or_introl eq_refl)) as (n & Hn & Hin).
    destruct (Dict.get (attrs w) n) as [attr|] eqn:Hattr;
      [|apply get_None_not_in in Hattr; contradiction].
    unfold load_apply at 1. rewrite Hn. run. rewrite Hattr. run.
    destruct (IH {| attrs := Dict.update (attrs w) n (fun a => fst (set a v));
                    errors := errors w |}) as (d' & Hrun & Hk).
    + intros k' Hk'. destruct (Hknown k' (or_intror Hk')) as (n' & Hn' & Hin').
      exists n'. split; [assumption|]. cbn [attrs]. now rewrite keys_update.
    + exists d'. rewrite Hrun. split; [reflexivity|].
      rewrite Hk. apply keys_update.
Qed.

(** X14: [load] exits, fatally, in two cases only: the content is no
    dictionary, or one of its keys is no declared wire name; in both the
    record is left exactly as it was.  When it goes through it reports
    nothing and keeps the attribute names and their order. *)
Theorem load_fails_only_before_changing (content : pyval) (w : world) :
  match load content w with
  | (Ret _, w') =>
      errors w' = errors w /\ Dict.keys (attrs w') = Dict.keys (attrs w)
  | (Exit msg, w') =>
      w' = w
      /\ ((msg = ProvideDictionary /\ forall c, content <> VDict c)
          \/ exists c k, content = VDict c /\ In k (Dict.keys c)
                         /\ ~ In k (wire_names (attrs w))
                         /\ msg = NotValidJsonAttribute k)
  | (Raise _, _) => True
  end.
Proof.
  destruct content as [| b | z | s | l | c];
    try (simpl; split; [reflexivity | left; split; [reflexivity | discriminate]]).
  unfold load, generate_json_lookup. run.
  destruct (load_check_cases (json_lookup (attrs w)) c w)
    as [[Hrun Hall]|(k & Hin & Hk & Hrun)]; rewrite Hrun.
  - unfold _clear_values. run.
    destruct (clear_loop_total (attrs w) w) as (d1 & Hclear & Hk1).
    rewrite Hclear.
    destruct (load_apply_total (json_lookup (attrs w)) c
                {| attrs := d1; errors := errors w |}) as (d2 & Happly & Hk2).
    + intros k Hk. specialize (Hall k Hk). rewrite get_json_lookup in *.
      destruct (winner (attrs w) k) as [n|] eqn:Hw; [|congruence].
      exists n. split; [reflexivity|]. cbn [attrs]. rewrite Hk1.
      apply winner_Some in Hw as (a & Ha & _).
      unfold Dict.keys. change n with (fst (n, a)). now apply in_map.
    + rewrite Happly. cbn [attrs errors] in *. split; [reflexivity|].
      now rewrite Hk2.
  - split; [reflexivity|]. right. exists c, k. repeat split; try assumption.
    apply winner_None. now rewrite <- get_json_lookup.
Qed.

(** X15: loading the empty mapping unsets every attribute. *)
Theorem load_empty_clears (d : Dict.t StructAttr) (e : list message) :
  unique_names d ->
  load (VDict []) (struct d e) = (Ret tt, struct (fresh d) e).
Proof.
  intros Hnd. unfold load, generate_json_lookup. run. cbn [for_each]. run.
  fold (struct d e). now rewrite clear_values_fresh.
Qed.

Lemma load_empty_clears_witness :
  load (VDict []) (struct Examples.busybox [])
  = (Ret tt, struct (fresh Examples.busybox) []).
Proof.
  apply (load_empty_clears Examples.busybox []).
  unfold unique_names. simpl. repeat constructor; simpl; intuition discriminate.
Defined.

Lemma winner_map (g : string * StructAttr -> pyval) (d : Dict.t StructAttr)
    (k : string) :
  winner (map (fun na => (fst na, with_value (snd na) (g na))) d) k = winner d k.
Proof.
  induction d as [|[n a] d IH]; simpl; [reflexivity|]. now rewrite IH.
Qed.

Lemma loaded_same_schema (g : string * StructAttr -> pyval)
    (d : Dict.t StructAttr) (c : Dict.t pyval) :
  loaded (map (fun na => (fst na, with_value (snd na) (g na))) d) c = loaded d c.
Proof.
  unfold loaded. rewrite map_map. apply map_ext. intros [n a]. cbn [fst snd].
  unfold loaded_value. cbn [jsonName with_value]. rewrite winner_map.
  reflexivity.
Qed.

Lemma wire_names_map (g : string * StructAttr -> pyval) (d : Dict.t StructAttr) :
  wire_names (map (fun na => (fst na, with_value (snd na) (g na))) d)
  = wire_names d.
Proof. unfold wire_names. rewrite map_map. reflexivity. Qed.

(** X16: [load] replaces: when every key of the content is a declared wire
    name, the record after [load] does not depend on the values the
    attributes held before, only on the declarations and the content. *)
Theorem load_forgets_previous_values (d : Dict.t StructAttr)
    (e : list message) (c : Dict.t pyval) :
  unique_names d ->
  NoDup (Dict.keys c) ->
  (forall k, In k (Dict.keys c) -> In k (wire_names d)) ->
  load (VDict c) (struct d e) = load (VDict c) (struct (fresh d) e).
Proof.
  intros Hnd Hc Hknown.
  rewrite (load_known d e c Hnd Hc Hknown).
  rewrite load_known; try assumption.
  - do 2 f_equal. symmetry. unfold fresh.
    apply (loaded_same_schema (fun _ => VNone)).
  - unfold unique_names, fresh.
    now rewrite (keys_map_snd (fun na => with_value (snd na) VNone)).
  - intros k Hk. rewrite wire_names_fresh. auto.
Qed.

Lemma load_forgets_previous_values_witness :
  load (VDict [("name", VStr "alpine")]) (struct Examples.busybox [])
  = load (VDict [("name", VStr "alpine")]) (struct (fresh Examples.busybox) []).
Proof.
  apply (load_forgets_previous_values Examples.busybox []
           [("name", VStr "alpine")]).
  - unfold unique_names. simpl. repeat constructor; simpl; intuition discriminate.
  - simpl. repeat constructor. simpl. tauto.
  - simpl. intros k [<-|[]]. now left.
Defined.

(** X17: loading the same content twice in a row leaves the record the
    first [load] left. *)
Theorem load_twice (d : Dict.t StructAttr) (e : list message)
    (c : Dict.t pyval) :
  unique_names d ->
  NoDup (Dict.keys c) ->
  (forall k, In k (Dict.keys c) -> In k (wire_names d)) ->
  (load (VDict c) ;;; load (VDict c)) (struct d e) = load (VDict c) (struct d e).
Proof.
  intros Hnd Hc Hknown. unfold bind.
  rewrite (load_known d e c Hnd Hc Hknown).
  rewrite load_known; try assumption.
  - do 2 f_equal. unfold loaded at 2.
    apply (loaded_same_schema
             (fun na => loaded_value d c (fst na) (snd na))).
  - unfold unique_names, loaded.
    now rewrite (keys_map_snd
                   (fun na => with_value (snd na)
                                (loaded_value d c (fst na) (snd na)))).
  - intros k Hk. unfold loaded.
    rewrite (wire_names_map (fun na => loaded_value d c (fst na) (snd na))).
    auto.
Qed.

Lemma load_twice_witness :
  (load (VDict [("name", VStr "alpine")]) ;;;
   load (VDict [("name", VStr "alpine")])) (struct Examples.busybox [])
  = load (VDict [("name", VStr "alpine")]) (struct Examples.busybox []).
Proof.
  apply (load_twice Examples.busybox [] [("name", VStr "alpine")]).
  - unfold unique_names. simpl. repeat constructor; simpl; intuition discriminate.
  - simpl. repeat constructor. simpl. tauto.
  - simpl. intros k [<-|[]]. now left.
Defined.

(** ** The round trip [load] then [to_dict] *)

Lemma Forall2_map_in {A B C} (P : A -> B -> Prop) (Q : C -> B -> Prop)
    (F : A -> C) (l1 : list A) (l2 : list B) :
  Forall2 P l1 l2 ->
  (forall x y, In x l1 -> In y l2 -> P x y -> Q (F x) y) ->
  Forall2 Q (map F l1) l2.
Proof.
  induction 1 as [|x y l1 l2 Hxy Hrest IH]; intros Himp; simpl.
  - constructor.
  - constructor.
    + apply Himp; [now left | now left | assumption].
    + apply IH. intros x' y' Hx Hy. apply Himp; now right.
Qed.

Lemma projection_of_loaded (l : Dict.t StructAttr) (c : Dict.t pyval) :
  Forall2 (fun na kv =>
             fst kv = jsonName (snd na) /\ value (snd na) = snd kv
             /\ truthy (snd kv) = true) l c ->
  projection l = c.
Proof.
  induction 1 as [|[n a] [k v] l c (Hk & Hv & Ht) Hrest IH]; simpl.
  - reflexivity.
  - simpl in Hk, Hv, Ht. unfold emitted. rewrite Hv, Ht. simpl.
    now rewrite IH, Hk.
Qed.

(** X18: when the content gives, in declaration order, one non-empty value
    for every attribute, under its wire name and of its type, which is given
    as a class, and wire names are pairwise distinct, then [load] goes
    through, [validate] accepts the record and [to_dict] gives the content
    back as it was. *)
Theorem load_then_to_dict (d : Dict.t StructAttr) (e : list message)
    (c : Dict.t pyval) :
  unique_names d ->
  unique_wire_names d ->
  Forall2 (fun na kv =>
             fst kv = jsonName (snd na)
             /\ truthy (snd kv) = true
             /\ exists t, attType (snd na) = Scalar t
                          /\ isinstance (snd kv) t = true) d c ->
  exists d',
    load (VDict c) (struct d e) = (Ret tt, struct d' e)
    /\ validate (struct d' e) = (Ret true, struct d' e)
    /\ to_dict (struct d' e) = (Ret (VDict c), struct d' e).
Proof.
  intros Hnd Hwire Hall.
  assert (Hkeys : Dict.keys c = wire_names d).
  { clear Hnd Hwire. induction Hall as [|na kv d c (Hk & _) _ IH]; simpl.
    - reflexivity.
    - now rewrite Hk, IH. }
  assert (Hc : NoDup (Dict.keys c)) by (now rewrite Hkeys).
  exists (loaded d c).
  assert (Hl : Forall2 (fun na kv =>
                          (fst kv = jsonName (snd na) /\ value (snd na) = snd kv
                           /\ truthy (snd kv) = true)
                          /\ valid_attr (snd na) = true) (loaded d c) c).
  { unfold loaded.
    apply (Forall2_map_in _ _ _ _ _ Hall).
    intros [n a] [k v] Hin Hinc (Hk & Ht & t & Hty & Hi).
    cbn [fst snd] in *.
    assert (Hval : loaded_value d c n a = v).
    { unfold loaded_value.
      rewrite <- Hk, (in_get c k v Hc Hinc), Hk.
      rewrite (winner_unique d n a Hwire Hin), String.eqb_refl.
      unfold validate_type. now rewrite Hty, Hi. }
    rewrite Hval. repeat split; try assumption.
    apply valid_attr_spec. cbn [with_value required value attType]. split.
    - now intros _.
    - exists t. now split. }
  assert (Hv : forallb valid_attr (map snd (loaded d c)) = true).
  { clear - Hl. induction Hl as [|na kv l c [_ Ha] _ IH]; simpl.
    - reflexivity.
    - now rewrite Ha, IH. }
  assert (Hproj : projection (loaded d c) = c).
  { apply projection_of_loaded.
    clear - Hl. induction Hl as [|na kv l c [H _] _ IH]; constructor; assumption. }
  split; [|split].
  - apply load_known; try assumption.
    intros k Hk. now rewrite <- Hkeys.
  - unfold validate, struct. run. now rewrite validate_loop_valid.
  - unfold to_dict, validate, struct. run.
    rewrite (validate_loop_valid _ _ Hv). run.
    rewrite to_dict_loop_valid; [now rewrite Hproj | assumption | |].
    + unfold loaded.
      now rewrite (wire_names_map (fun na => loaded_value d c (fst na) (snd na))).
    + intros ? ? [].
Qed.

Lemma load_then_to_dict_witness :
  exists d',
    load (VDict [("x", VStr "a"); ("size", VInt 7)])
      (struct [("A", mkAttr "A" VNone (Scalar TStr) true "x" true);
               ("Size", mkAttr "Size" (VInt 0) (Scalar TInt) false "size" false)] [])
    = (Ret tt, struct d' [])
    /\ validate (struct d' []) = (Ret true, struct d' [])
    /\ to_dict (struct d' [])
       = (Ret (VDict [("x", VStr "a"); ("size", VInt 7)]), struct d' []).
Proof.
  apply (load_then_to_dict
           [("A", mkAttr "A" VNone (Scalar TStr) true "x" true);
            ("Size", mkAttr "Size" (VInt 0) (Scalar TInt) false "size" false)]
           [] [("x", VStr "a"); ("size", VInt 7)]).
  - unfold unique_names. simpl. repeat constructor; simpl; intuition discriminate.
  - unfold unique_wire_names. simpl.
    repeat constructor; simpl; intuition discriminate.
  - repeat constructor; simpl; eauto.
Defined.

(** ** More on [to_dict], [add] and [validate] *)

Lemma keys_set_present {V} (d : Dict.t V) (k : string) (v : V) :
  In k (Dict.keys d) -> Dict.keys (Dict.set d k v) = Dict.keys d.
Proof.
  induction d as [|[k0 v0] d IH]; simpl; [contradiction|].
  destruct (String.eqb_spec k0 k) as [->|Hk]; [reflexivity|].
  intros [?|Hin]; [congruence|]. simpl. f_equal. now apply IH.
Qed.

Lemma keys_set_NoDup {V} (d : Dict.t V) (k : string) (v : V) :
  NoDup (Dict.keys d) ->
  NoDup (Dict.keys (Dict.set d k v))
  /\ forall k', In k' (Dict.keys (Dict.set d k v)) ->
                In k' (Dict.keys d) \/ k' = k.
Proof.
  intros Hnd. destruct (Dict.get d k) eqn:E.
  - assert (Hin : In k (Dict.keys d)).
    { apply get_in in E. unfold Dict.keys.
      change k with (fst (k, v0)). now apply in_map. }
    rewrite keys_set_present by assumption. auto.
  - rewrite set_keys_fresh by assumption. split.
    + apply NoDup_app; [assumption | repeat constructor; tauto |].
      intros k' Hk' [<-|[]]. now apply get_None_not_in in E.
    + intros k' Hk'. apply in_app_or in Hk'.
      destruct Hk' as [Hr|[<-|[]]]; auto.
Qed.

Lemma to_dict_loop_keys (items : list (string * StructAttr)) :
  forall (result m : Dict.t pyval) (w w' : world),
    to_dict_loop items result w = (Ret m, w') ->
    NoDup (Dict.keys result) ->
    NoDup (Dict.keys m)
    /\ forall k, In k (Dict.keys m) ->
                 In k (Dict.keys result) \/ In k (wire_names items).
Proof.
  induction items as [|[n a] items IH]; intros result m w w' Hrun Hnd; simpl in *.
  - injection Hrun as <- <-. auto.
  - assert (Hstep : forall v,
      to_dict_loop items (Dict.set result (jsonName a) v) w = (Ret m, w') ->
      NoDup (Dict.keys m)
      /\ forall k, In k (Dict.keys m) ->
                   In k (Dict.keys result)
                   \/ (jsonName a = k \/ In k (wire_names items))).
    { intros v Hv.
      destruct (keys_set_NoDup result (jsonName a) v Hnd) as [Hnd' Hsub].
      destruct (IH _ _ _ _ Hv Hnd') as [Hm Hk]. split; [assumption|].
      intros k Hin. destruct (Hk k Hin) as [H|H]; [|auto].
      destruct (Hsub k H) as [Hr | ->]; auto. }
    destruct (negb (truthy (value a)) && omitempty a).
    + destruct (IH _ _ _ _ Hrun Hnd) as [Hm Hk]. split; [assumption|].
      intros k Hin. destruct (Hk k Hin); auto.
    + destruct (negb (truthy (value a))); [|now apply (Hstep (value a))].
      destruct (attType a) as [t|ts]; [|discriminate].
      now apply (Hstep (empty_lookup t)).
Qed.

(** X19: whenever [to_dict] yields a mapping, also when attributes share a
    wire name, every key of the mapping is the wire name of a declared
    attribute and no key occurs twice. *)
Theorem to_dict_keys_are_wire_names (w w' : world) (m : Dict.t pyval) :
  to_dict w = (Ret (VDict m), w') ->
  NoDup (Dict.keys m)
  /\ forall k, In k (Dict.keys m) -> In k (wire_names (attrs w)).
Proof.
  intros H. pose proof (to_dict_needs_validate _ _ _ H) as Hv.
  apply validate_true_iff in Hv.
  revert H. unfold to_dict, validate. run.
  rewrite (validate_loop_valid _ _ Hv). run.
  destruct (to_dict_loop (attrs w) [] w) as [[r|msg|x] w1] eqn:E;
    try discriminate.
  intros [= <- <-].
  destruct (to_dict_loop_keys _ _ _ _ _ E) as [Hnd Hk]; [constructor|].
  split; [assumption|]. intros k Hin. destruct (Hk k Hin) as [[]|Hr].
  assumption.
Qed.

Lemma to_dict_keys_are_wire_names_witness :
  NoDup (Dict.keys [("x", VStr "b")])
  /\ forall k, In k (Dict.keys [("x", VStr "b")]) ->
               In k (wire_names Examples.same_wire).
Proof.
  apply (to_dict_keys_are_wire_names (struct Examples.same_wire [])
           (struct Examples.same_wire []) [("x", VStr "b")]).
  reflexivity.
Defined.

Lemma forallb_update (P : StructAttr -> bool) (d : Dict.t StructAttr)
    (n : string) (f : StructAttr -> StructAttr) :
  forallb P (map snd d) = true ->
  (forall a, Dict.get d n = Some a -> P (f a) = true) ->
  forallb P (map snd (Dict.update d n f)) = true.
Proof.
  induction d as [|[k a] d IH]; simpl; intros Hall Hf; [reflexivity|].
  apply andb_true_iff in Hall as [Ha Hrest].
  destruct (k =? n)%string; simpl.
  - now rewrite (Hf a eq_refl), Hrest.
  - rewrite Ha. now apply IH.
Qed.

(** X20: [add] keeps a valid record valid: if [validate] accepts the record
    and [add] goes through, [validate] accepts the record [add] leaves. *)
Theorem add_keeps_valid (w : world) (n : string) (v : pyval) :
  fst (validate w) = Ret true ->
  fst (add n v w) = Ret tt ->
  fst (validate (snd (add n v w))) = Ret true.
Proof.
  intros Hv. rewrite add_run.
  destruct (Dict.get (attrs w) n) as [a|] eqn:E; [|discriminate].
  destruct (truthy v) eqn:Ht; [|now intros _].
  destruct (validate_type a v) eqn:Hty; [|discriminate].
  intros _. cbn [snd]. apply validate_true_iff. cbn [attrs].
  apply validate_true_iff in Hv.
  apply forallb_update; [assumption|].
  intros a' Ha'. rewrite E in Ha'. injection Ha' as <-.
  assert (Ha : valid_attr a = true).
  { apply (proj1 (forallb_forall _ _) Hv).
    apply get_in in E. change a with (snd (n, a)). now apply in_map. }
  apply valid_attr_spec in Ha as [_ (t & Hsc & _)].
  apply valid_attr_spec. cbn [with_value required value attType]. split.
  - now intros _.
  - exists t. split; [assumption|].
    unfold validate_type in Hty. now rewrite Hsc in Hty.
Qed.

Lemma add_keeps_valid_witness :
  fst (validate (snd (add "Size" (VInt 7) (struct Examples.zero_size []))))
  = Ret true.
Proof.
  apply (add_keeps_valid (struct Examples.zero_size []) "Size" (VInt 7));
    reflexivity.
Defined.

(** X21: when every type is given as a class and some required attribute
    is empty, [validate] reports one error and returns [False], [to_dict]
    and [to_json] return [None], and the attributes are untouched. *)
Theorem required_empty_fails_scalar (w : world) :
  Forall (fun na => exists t, attType (snd na) = Scalar t) (attrs w) ->
  Exists (fun na => required (snd na) = true /\ truthy (value (snd na)) = false)
    (attrs w) ->
  exists msg,
    let w' := {| attrs := attrs w; errors := errors w ++ [msg] |} in
    validate w = (Ret false, w')
    /\ to_dict w = (Ret VNone, w')
    /\ to_json w = (Ret VNone, w').
Proof.
  intros Hsc Hex.
  destruct (validate_required_unset_scalar (attrs w) w Hsc Hex) as (msg & Hrun).
  exists msg. cbv zeta.
  assert (Hd : to_dict w
               = (Ret VNone, {| attrs := attrs w; errors := errors w ++ [msg] |})).
  { unfold to_dict, validate. run. rewrite Hrun. reflexivity. }
  split; [|split].
  - unfold validate. run. exact Hrun.
  - exact Hd.
  - unfold to_json. run. rewrite Hd. reflexivity.
Qed.

Lemma required_empty_fails_scalar_witness :
  exists msg,
    let w := struct [("Name", mkAttr "Name" (VStr EmptyString) (Scalar TStr)
                                true "name" true)] [] in
    let w' := {| attrs := attrs w; errors := errors w ++ [msg] |} in
    validate w = (Ret false, w')
    /\ to_dict w = (Ret VNone, w')
    /\ to_json w = (Ret VNone, w').
Proof.
  apply (required_empty_fails_scalar
           (struct [("Name", mkAttr "Name" (VStr EmptyString) (Scalar TStr)
                               true "name" true)] [])).
  - repeat constructor. simpl. eauto.
  - apply Exists_cons_hd. split; reflexivity.
Defined.

(** ** Declaring twice into the same dictionary *)

(** X22: [attrs] is one dictionary on the class, so the declarations of a
    second run land in the dictionary of the first.  Running a non-empty
    list of declarations with distinct names a second time exits fatally at
    its first name and leaves the attributes of the first run in place. *)
Theorem declare_twice_exits (x : declaration) (ds : list declaration)
    (e : list message) :
  NoDup (map d_name (x :: ds)) ->
  exists d,
    declare (x :: ds) (struct [] e) = (Ret tt, struct d e)
    /\ (declare (x :: ds) ;;; declare (x :: ds)) (struct [] e)
       = (Exit (AlreadyAdded (d_name x)), struct d e).
Proof.
  intros Hnd.
  exists (map (fun x => (d_name x,
                         StructAttr_init (d_name x) (d_attType x)
                           (d_required x) (d_jsonName x) VNone
                           (d_omitempty x))) (x :: ds)).
  assert (Hrun : declare (x :: ds) (struct [] e)
                 = (Ret tt,
                    struct (map (fun x => (d_name x,
                                           StructAttr_init (d_name x) (d_attType x)
                                             (d_required x) (d_jsonName x) VNone
                                             (d_omitempty x))) (x :: ds)) e)).
  { rewrite declare_run; [reflexivity | assumption | intros y _ []]. }
  split; [exact Hrun|].
  unfold bind at 1. rewrite Hrun.
  unfold declare, struct. cbn [for_each]. unfold bind. rewrite newAttr_run.
  cbn [attrs map]. unfold Dict.mem. cbn [Dict.get].
  now rewrite String.eqb_refl.
Qed.

Lemma declare_twice_exits_witness :
  exists d,
    declare Examples.image_schema (struct [] []) = (Ret tt, struct d [])
    /\ (declare Examples.image_schema ;;; declare Examples.image_schema)
         (struct [] [])
       = (Exit (AlreadyAdded "Name"), struct d []).
Proof.
  apply (declare_twice_exits
           (mkDecl "Name" (Scalar TStr) true (Some "name") true)
           [mkDecl "Tags" (InList [TStr]) false None true] []).
  simpl. repeat constructor; simpl; intuition discriminate.
Defined.
